(** * radioactivedecay: the [Radionuclide] class

    A shallow embedding of [radioactivedecay/radionuclide.py] and of the two
    helpers it imports from [radioactivedecay.utils].

    Python [float] and [numpy.float64] values are IEEE-754 binary64 numbers;
    they are modelled by Rocq's primitive floats, whose [*] and [/] are the
    binary64 operations (round to nearest even, signed zeros, infinities and
    NaN).  Python [str] values are modelled by [string], dictionaries whose
    iteration order is observed by association lists, and the dataset's
    name-to-index dictionary by a [gmap].

    The [Inventory] class and its decay solver are not among the sources:
    [inventory] models them from the spec, over the real numbers in which
    the spec states the Bateman solution. *)

From Stdlib Require Import Reals Lra.
From Stdlib Require Import ZArith NArith Ascii String Floats Lia.
From stdpp Require Import base option list strings gmap relations.

Set Warnings "-inexact-float".
Local Open Scope string_scope.

(** ** Exceptions and results *)

(** The exceptions the modelled code can raise.  [InvalidIdentifier] and
    [InvalidUnit] are the two error kinds of the spec (§7) that
    [radioactivedecay.utils] raises as [ValueError]; they carry what the
    message is built from. *)
Inductive exception : Type :=
  | InvalidIdentifier (raw dataset : string)
  | InvalidUnit (token : string)
  | KeyError (key : string)
  | IndexError
  | AttributeError (name : string).

(** A call returns a value or raises. *)
Inductive result (A : Type) : Type :=
  | Ok (a : A)
  | Raise (e : exception).
Arguments Ok {A} a.
Arguments Raise {A} e.

Definition bind {A B} (m : result A) (k : A -> result B) : result B :=
  match m with
  | Ok a => k a
  | Raise e => Raise e
  end.

Notation "'let!' x ':=' m 'in' k" := (bind m (fun x => k))
  (at level 10, x name, m at level 100, k at level 200).

(** ** Python containers *)

(** An insertion-ordered [dict] with string keys. *)
Definition pydict (V : Type) : Type := list (string * V).

Definition keys {V} (d : pydict V) : list string := map fst d.
Definition values {V} (d : pydict V) : list V := map snd d.

(** [d[key]] on a [dict]: the first (and, in a [dict], only) entry under
    [key], or [KeyError]. *)
Fixpoint pydict_get {V} (d : pydict V) (key : string) : result V :=
  match d with
  | [] => Raise (KeyError key)
  | (k, v) :: d' => if String.eqb k key then Ok v else pydict_get d' key
  end.

(** [d[key]] on the name-to-index dictionary. *)
Definition dict_get {V} (d : gmap string V) (key : string) : result V :=
  match d !! key with
  | Some v => Ok v
  | None => Raise (KeyError key)
  end.

(** [l[i]] on a list or a numpy array: a negative index counts from the end,
    an index out of range raises [IndexError]. *)
Definition py_index {A} (l : list A) (i : Z) : result A :=
  let n := Z.of_nat (length l) in
  let j := if (i <? 0)%Z then (i + n)%Z else i in
  if ((0 <=? j) && (j <? n))%Z then
    match l !! Z.to_nat j with
    | Some x => Ok x
    | None => Raise IndexError
    end
  else Raise IndexError.

(** [obj.name] on an attribute that may not have been assigned yet. *)
Definition getattr {A} (name : string) (slot : option A) : result A :=
  match slot with
  | Some a => Ok a
  | None => Raise (AttributeError name)
  end.

(** ** The decay dataset *)

(** The value stored under one progeny: the two-element list of its
    branching fraction and its decay mode. *)
Definition bf_and_mode : Type := float * string.

(** Modelled from the spec: the [DecayData] class is declared in
    [radioactivedecay/decaydata.py], which is not among the sources.  The
    record has the attributes [radionuclide.py] reads, typed after the data
    model of spec §3: the dataset identifier, the nuclide list, the
    identifier-to-index map, the decay constants and progeny maps by index,
    the year length in days and the constant ln 2. *)
Record DecayData : Type := {
  dataset : string;
  radionuclides : list string;
  radionuclide_dict : gmap string Z;
  decay_consts : list float;
  prog_bfs_modes : list (pydict bf_and_mode);
  year_conv : float;
  ln2 : float
}.

(** ** The helpers imported from [radioactivedecay.utils] *)

(** [from radioactivedecay.utils import parse_radionuclide, time_unit_conv]:
    the module is not among the sources, so [radionuclide.py] is embedded
    against this interface.  [imported_utils] below is the instance modelled
    from the spec. *)
Class Utils : Type := {
  parse_radionuclide : string -> list string -> string -> result string;
  time_unit_conv : float -> string -> string -> float -> result float
}.

(** ** [class Radionuclide] *)

(** An instance is its attribute store: each attribute is absent until
    [__init__] assigns it. *)
Record Radionuclide : Type := {
  radionuclide : option string;
  decay_constant : option float;
  prog_bf_mode : option (pydict bf_and_mode);
  data : option DecayData
}.

(** The instance [__init__] receives: no attribute assigned. *)
Definition blank : Radionuclide :=
  {| radionuclide := None; decay_constant := None;
     prog_bf_mode := None; data := None |}.

(** A method that may assign attributes of [self] and may raise: the store
    reached is returned in both cases. *)
Definition method (A : Type) : Type := Radionuclide -> Radionuclide * result A.

Definition mbind {A B} (m : method A) (k : A -> method B) : method B :=
  fun self =>
    match m self with
    | (self', Ok a) => k a self'
    | (self', Raise e) => (self', Raise e)
    end.

Definition lift {A} (r : result A) : method A := fun self => (self, r).

Definition read {A} (name : string) (slot : Radionuclide -> option A) : method A :=
  fun self => (self, getattr name (slot self)).

Notation "'do!' x ':=' m 'in' k" := (mbind m (fun x => k))
  (at level 10, x name, m at level 100, k at level 200).

Definition set_radionuclide (v : string) : method unit := fun self =>
  ({| radionuclide := Some v; decay_constant := decay_constant self;
      prog_bf_mode := prog_bf_mode self; data := data self |}, Ok tt).

Definition set_decay_constant (v : float) : method unit := fun self =>
  ({| radionuclide := radionuclide self; decay_constant := Some v;
      prog_bf_mode := prog_bf_mode self; data := data self |}, Ok tt).

Definition set_prog_bf_mode (v : pydict bf_and_mode) : method unit := fun self =>
  ({| radionuclide := radionuclide self; decay_constant := decay_constant self;
      prog_bf_mode := Some v; data := data self |}, Ok tt).

Definition set_data (v : DecayData) : method unit := fun self =>
  ({| radionuclide := radionuclide self; decay_constant := decay_constant self;
      prog_bf_mode := prog_bf_mode self; data := Some v |}, Ok tt).

Section RadionuclideClass.
Context {U : Utils}.

(** [Radionuclide.__init__] (radionuclide.py, lines 48-58): the four
    assignments in order; the second and third read back
    [self.radionuclide]. *)
Definition __init__ (raw : string) (d : DecayData) : method unit :=
  do! name := lift (parse_radionuclide raw (radionuclides d) (dataset d)) in
  do! _ := set_radionuclide name in
  do! key := read "radionuclide" radionuclide in
  do! idx := lift (dict_get (radionuclide_dict d) key) in
  do! dc := lift (py_index (decay_consts d) idx) in
  do! _ := set_decay_constant dc in
  do! key := read "radionuclide" radionuclide in
  do! idx := lift (dict_get (radionuclide_dict d) key) in
  do! pbm := lift (py_index (prog_bfs_modes d) idx) in
  do! _ := set_prog_bf_mode pbm in
  set_data d.

(** The call [Radionuclide(raw, d)]: [__init__] runs on a blank instance,
    and the instance is the value of the call only if it returns. *)
Definition new_Radionuclide (raw : string) (d : DecayData) : result Radionuclide :=
  match __init__ raw d blank with
  | (self, Ok _) => Ok self
  | (_, Raise e) => Raise e
  end.

(** [Radionuclide.half_life] (lines 60-91).  [conv] is computed first;
    the division is numpy's, since [decay_constant] is a [numpy.float64]
    (class docstring): a zero divisor gives an infinity or NaN and a
    warning, never [ZeroDivisionError]. *)
Definition half_life (self : Radionuclide) (units : string) : result float :=
  let! conv :=
    (if String.eqb units "s" then Ok 1%float
     else let! d := getattr "data" (data self) in
          time_unit_conv 1%float "s" units (year_conv d)) in
  let! d := getattr "data" (data self) in
  let! dc := getattr "decay_constant" (decay_constant self) in
  Ok (conv * ln2 d / dc)%float.

(** [Radionuclide.progeny] (lines 93-111). *)
Definition progeny (self : Radionuclide) : result (list string) :=
  let! pbm := getattr "prog_bf_mode" (prog_bf_mode self) in
  Ok (keys pbm).

(** [Radionuclide.branching_fractions] (lines 113-130). *)
Definition branching_fractions (self : Radionuclide) : result (list float) :=
  let! pbm := getattr "prog_bf_mode" (prog_bf_mode self) in
  Ok (map (fun bf_mode : bf_and_mode => fst bf_mode) (values pbm)).

(** [Radionuclide.decay_modes] (lines 132-151). *)
Definition decay_modes (self : Radionuclide) : result (list string) :=
  let! pbm := getattr "prog_bf_mode" (prog_bf_mode self) in
  Ok (map (fun bf_mode : bf_and_mode => snd bf_mode) (values pbm)).

(** [Radionuclide.__repr__] (lines 153-159); [str] of a string is the
    string. *)
Definition __repr__ (self : Radionuclide) : result string :=
  let! name := getattr "radionuclide" (radionuclide self) in
  let! d := getattr "data" (data self) in
  Ok ("Radionuclide: " ++ name ++ ", Decay dataset: " ++ dataset d).

(** The contract of [parse_radionuclide] that [__init__] relies on (spec
    §4.1: a string that "parses to a nuclide absent from dataset.nuclides"
    is rejected). *)
Definition returns_listed_nuclide : Prop :=
  forall raw l ds name, parse_radionuclide raw l ds = Ok name -> name ∈ l.

End RadionuclideClass.

(** The names the class body of [Radionuclide] binds (radionuclide.py, lines
    48, 60, 93, 113, 132 and 153); the class has no base class but [object],
    whose names are all of the form [__x__]. *)
Definition class_namespace : list string :=
  ["__init__"; "half_life"; "progeny"; "branching_fractions"; "decay_modes";
   "__repr__"].

(** The attributes [self] holds: the ones [__init__] has assigned so far. *)
Definition instance_namespace (self : Radionuclide) : list string :=
  (match radionuclide self with Some _ => ["radionuclide"] | None => [] end ++
   match decay_constant self with Some _ => ["decay_constant"] | None => [] end ++
   match prog_bf_mode self with Some _ => ["prog_bf_mode"] | None => [] end ++
   match data self with Some _ => ["data"] | None => [] end)%list.

(** Attribute lookup [self.name] for a name that is not of the form
    [__x__]: the instance's own attributes, then the class body; a name
    found in neither raises [AttributeError]. *)
Definition resolve (self : Radionuclide) (name : string) : result unit :=
  if bool_decide (name ∈ (instance_namespace self ++ class_namespace)%list)
  then Ok tt
  else Raise (AttributeError name).

(** ** [radioactivedecay.utils], modelled from the spec *)

Module utils.

(** *** Characters *)

Definition code (c : ascii) : N := N_of_ascii c.

Definition is_digit (c : ascii) : bool := (48 <=? code c)%N && (code c <=? 57)%N.
Definition is_upper (c : ascii) : bool := (65 <=? code c)%N && (code c <=? 90)%N.
Definition is_lower (c : ascii) : bool := (97 <=? code c)%N && (code c <=? 122)%N.
Definition is_letter (c : ascii) : bool := is_upper c || is_lower c.

(** Modelled from the spec: the metastable-state letters, the "known small
    set, e.g. m, n" of spec §4.1. *)
Definition is_suffix_letter (c : ascii) : bool :=
  Ascii.eqb c "m" || Ascii.eqb c "n".

(** The longest prefix of [s] whose characters satisfy [p], and the rest. *)
Fixpoint span (p : ascii -> bool) (s : string) : string * string :=
  match s with
  | "" => ("", "")
  | String c s' =>
      if p c then let '(a, b) := span p s' in (String c a, b) else ("", s)
  end.

Fixpoint all_chars (p : ascii -> bool) (s : string) : bool :=
  match s with
  | "" => true
  | String c s' => p c && all_chars p s'
  end.

(** *** The three components of an identifier (spec §4.1) *)

(** Modelled from the spec: the "case-sensitive element symbol, 1-2
    letters" of spec §4.1, a capital and at most one small letter. *)
Definition is_symbol (s : string) : bool :=
  match s with
  | String a "" => is_upper a
  | String a (String b "") => is_upper a && is_lower b
  | _ => false
  end.

(** Modelled from the spec: the "mass number 1-3 digits" of spec §4.1. *)
Definition is_mass (s : string) : bool :=
  all_chars is_digit s && (1 <=? String.length s)%nat && (String.length s <=? 3)%nat.

(** Modelled from the spec: the "optional single-letter metastable suffix"
    of spec §4.1. *)
Definition is_suffix (s : string) : bool :=
  match s with
  | "" => true
  | String c "" => is_suffix_letter c
  | _ => false
  end.

(** Modelled from the spec: the output "normalized to Symbol-Mass[Suffix]"
    of spec §4.1. *)
Definition canonical (symbol mass suffix : string) : string :=
  symbol ++ "-" ++ mass ++ suffix.

(** Modelled from the spec: splitting a raw identifier into symbol, mass
    number and suffix (the parser of [utils.py] is not among the sources).
    Spec §4.1 accepts the layouts [Symbol-Mass[Suffix]],
    [SymbolMass[Suffix]] and the one that starts with the mass number, in
    which the suffix stays next to the mass number ("34mCl", "118mI" in
    tests/test_decayfunctions.py). *)
Definition split_identifier (raw : string) : option (string * string * string) :=
  match raw with
  | "" => None
  | String c _ =>
      let '(symbol, mass, suffix) :=
        if is_digit c then
          let '(mass, rest) := span is_digit raw in
          match rest with
          | String x symbol =>
              if is_suffix_letter x then (symbol, mass, String x "")
              else (rest, mass, "")
          | "" => ("", mass, "")
          end
        else
          let '(symbol, rest) := span is_letter raw in
          let rest :=
            match rest with
            | String "-" rest' => rest'
            | _ => rest
            end in
          let '(mass, suffix) := span is_digit rest in
          (symbol, mass, suffix) in
      if is_symbol symbol && is_mass mass && is_suffix suffix
      then Some (symbol, mass, suffix)
      else None
  end.

(** Modelled from the spec: [parse_radionuclide(radionuclide,
    radionuclides, dataset)], the canonicalization of spec §4.1.  It
    "fails with InvalidIdentifier when the string cannot be parsed or
    parses to a nuclide absent from dataset.nuclides"; the "output is
    always normalized to Symbol-Mass[Suffix]". *)
Definition parse_radionuclide (raw : string) (radionuclides : list string)
    (dataset : string) : result string :=
  match split_identifier raw with
  | Some (symbol, mass, suffix) =>
      let name := canonical symbol mass suffix in
      if bool_decide (name ∈ radionuclides) then Ok name
      else Raise (InvalidIdentifier raw dataset)
  | None => Raise (InvalidIdentifier raw dataset)
  end.

(** *** Time units (spec §4.2) *)

(** Modelled from the spec: the seconds in a year of [year_conv] days,
    "year_length_days * 86400" in spec §4.2. *)
Definition year_seconds (year_conv : float) : float := (year_conv * 86400)%float.

(** Modelled from the spec: the "fixed per-unit seconds-per-unit
    constant" of every recognized token of spec §4.2, as the dictionary
    the converter looks tokens up in. *)
Definition seconds_per_unit (year_conv : float) : pydict float :=
  [ ("s", 1); ("sec", 1); ("second", 1); ("seconds", 1);
    ("ms", 1e-3); ("us", 1e-6); ("ns", 1e-9);
    ("m", 60); ("min", 60);
    ("h", 3600); ("hr", 3600); ("hour", 3600); ("hours", 3600);
    ("d", 86400); ("day", 86400); ("days", 86400);
    ("y", year_seconds year_conv); ("yr", year_seconds year_conv);
    ("year", year_seconds year_conv); ("years", year_seconds year_conv);
    ("ky", year_seconds year_conv * 1e3);
    ("My", year_seconds year_conv * 1e6);
    ("Gy", year_seconds year_conv * 1e9);
    ("Ty", year_seconds year_conv * 1e12);
    ("Py", year_seconds year_conv * 1e15) ]%float.

(** Modelled from the spec: the tokens spec §4.2 lists as recognized. *)
Definition recognized_units : list string :=
  [ "s"; "sec"; "second"; "seconds"; "ms"; "us"; "ns"; "m"; "min";
    "h"; "hr"; "hour"; "hours"; "d"; "day"; "days";
    "y"; "yr"; "year"; "years"; "ky"; "My"; "Gy"; "Ty"; "Py" ].

(** Modelled from the spec: [time_unit_conv(time_period, units_from,
    units_to, year_conv)], the converter of spec §4.2: "fails with
    InvalidUnit for unrecognized unit tokens", else converts "to seconds
    using a fixed per-unit seconds-per-unit constant, then from seconds to
    to_unit by dividing by that unit's seconds-per-unit constant". *)
Definition time_unit_conv (time_period : float) (units_from units_to : string)
    (year_conv : float) : result float :=
  let conv := seconds_per_unit year_conv in
  match pydict_get conv units_from, pydict_get conv units_to with
  | Raise _, _ => Raise (InvalidUnit units_from)
  | _, Raise _ => Raise (InvalidUnit units_to)
  | Ok from_seconds, Ok to_seconds =>
      Ok (time_period * from_seconds / to_seconds)%float
  end.

End utils.

(** [radioactivedecay.utils] as [radionuclide.py] imports it. *)
Definition imported_utils : Utils :=
  {| parse_radionuclide := utils.parse_radionuclide;
     time_unit_conv := utils.time_unit_conv |}.

(** ** The inventory and its decay solver, modelled from the spec *)

Module inventory.

(** Equality of real numbers is decidable (classically): the solver asks
    whether two decay constants of a path are equal. *)
#[export] Instance R_eq_dec : EqDecision R := Req_EM_T.

Section Solver.
Local Open Scope R_scope.

(** Modelled from the spec: the decay dataset as the solver reads it (spec
    §3), keyed by canonical identifier: the dataset identifier, the decay
    constant of a nuclide (zero for a stable one), its progeny map with the
    branching fractions, in stored order, the year length in days, and the
    "fixed maximum depth" of a decay chain.  The class is declared in
    [radioactivedecay/decaydata.py], which is not among the sources; decay
    constants and branching fractions are taken as the real numbers they
    denote. *)
Record ChainData : Type := {
  dataset_id : string;
  decay_constant : string -> R;
  progeny : string -> list (string * R);
  year_length_days : R;
  max_depth : nat
}.

(** Modelled from the spec: an [Inventory] (spec §3), its [contents] a
    mapping from identifier to a real quantity and [data] the dataset it
    is bound to.  The class is not among the sources. *)
Record Inventory : Type := {
  contents : gmap string R;
  data : ChainData
}.

(** The sum and the product of a list of reals. *)
Definition sum_R (l : list R) : R := foldr Rplus 0 l.
Definition prod_R (l : list R) : R := foldr Rmult 1 l.

(** Modelled from the spec: the closed-form sum of spec §4.5 for a path
    with decay constants [lams], "Σ_{m=0}^{k} [ exp(-λm * t) /
    Π_{p=0..k, p≠m} (λp - λm) ]". *)
Definition bateman_sum (lams : list R) (t : R) : R :=
  sum_R (imap (fun m lam_m =>
                 exp (- lam_m * t)
                 / prod_R (map (fun lam_p => lam_p - lam_m) (delete m lams)))
              lams).

(** The limiting form that replaces the closed-form sum when two decay
    constants of a path are equal.  Spec §4.5 states it in words only ("a
    term linear in t ... in place of the two singular terms", applied
    "iteratively/recursively pairwise"), so the solver is modelled for any
    such form. *)
Variable limiting_form : list R -> R -> R.

(** Modelled from the spec: the sum a path contributes through, the closed
    form unless "any two decay constants ... on a path are numerically
    equal" (spec §4.5, degenerate case). *)
Definition path_sum (lams : list R) (t : R) : R :=
  if decide (NoDup lams) then bateman_sum lams t else limiting_form lams t.

(** Modelled from the spec: the "depth-first enumeration of every finite
    path" from a root (spec §4.5).  The walk stands at [n], the end of a
    path whose earlier members have the decay constants [lams], and
    [coeff] is the path coefficient so far, "N0 * Π(b1..bk) *
    Π(λ0..λ(k-1))".  The path contributes [coeff] times its sum to [n], and
    is extended by each direct progeny of [n], [depth] more times at
    most. *)
Fixpoint chain (d : ChainData) (t : R) (depth : nat) (n : string)
    (lams : list R) (coeff : R) : list (string * R) :=
  let lams' := (lams ++ [decay_constant d n])%list in
  (n, coeff * path_sum lams' t) ::
  match depth with
  | O => []
  | S depth' =>
      flat_map (fun '(child, b) =>
                  chain d t depth' child lams' (coeff * b * decay_constant d n))
               (progeny d n)
  end.

(** Modelled from the spec: the contributions of the paths that start at
    [root], present with the quantity [initial]. *)
Definition contributions (d : ChainData) (t : R) (root : string) (initial : R)
    : list (string * R) :=
  chain d t (max_depth d) root [] initial.

(** Modelled from the spec: "accumulating into a shared result mapping
    keyed by identifier" (spec §4.5, merging). *)
Definition accumulate (acc : gmap string R) (cs : list (string * R))
    : gmap string R :=
  foldl (fun acc '(n, c) => <[n := default 0 (acc !! n) + c]> acc) acc cs.

(** Modelled from the spec: the solver, "for each nuclide r present in
    inventory.contents with initial quantity N0" (spec §4.5). *)
Definition solve (d : ChainData) (quantities : gmap string R) (t : R)
    : gmap string R :=
  foldl (fun acc '(root, initial) =>
           accumulate acc (contributions d t root initial))
        ∅ (map_to_list quantities).

(** Modelled from the spec: [decay(inventory, elapsed_seconds)], "a new
    Inventory over the same dataset" (spec §4.5). *)
Definition decay (inv : Inventory) (t : R) : Inventory :=
  {| contents := solve (data inv) (contents inv) t; data := data inv |}.

(** Modelled from the spec: the seconds in a year, "year_length_days *
    86400" (spec §4.2), by which [decay(elapsed, 'y')] scales [elapsed]. *)
Definition seconds_per_year (d : ChainData) : R := year_length_days d * 86400.

(** Modelled from the spec: [add] (spec §4.4), "for each (canonical)
    nuclide, sum the given quantity onto the existing value, inserting new
    keys as needed". *)
Definition add (a b : gmap string R) : gmap string R :=
  union_with (fun x y => Some (x + y)) a b.

(** Modelled from the spec: the operator [+] on two inventories (spec
    §4.4): "both operands must share the identical dataset (dataset_id
    equality) or the operation fails". *)
Definition __add__ (a b : Inventory) : option Inventory :=
  if decide (dataset_id (data a) = dataset_id (data b))
  then Some {| contents := add (contents a) (contents b); data := data a |}
  else None.

(** Modelled from the spec: the invariant of spec §3, "the progeny
    relation, followed transitively from any nuclide, never revisits a
    nuclide already on the current path". *)
Definition descends (d : ChainData) : relation string :=
  tc (fun parent child => child ∈ (progeny d parent).*1).

Definition acyclic (d : ChainData) : Prop := forall n, ~ descends d n n.

End Solver.
End inventory.

(** ** A sample dataset *)

(** Four rows in the shape of the ICRP-107 dataset, with the fixtures the
    docstrings and tests quote: the dataset name, the year length 365.2422,
    the decay constant of Rn-222 and the progeny of K-40.  The decay
    constants of H-3 and K-40 are [ln2] over their half-lives of 12.32 and
    1.251e9 years in seconds; He-3 stands for a stable nuclide (decay
    constant zero, no progeny). *)
Definition sample_data : DecayData :=
  {| dataset := "icrp107";
     radionuclides := ["H-3"; "He-3"; "K-40"; "Rn-222"];
     radionuclide_dict :=
       <["H-3" := 0%Z]> (<["He-3" := 1%Z]> (<["K-40" := 2%Z]>
         (<["Rn-222" := 3%Z]> ∅)));
     decay_consts :=
       [1.7828715741004621e-09; 0; 1.7557935885625657e-17;
        2.0982180755947176e-06]%float;
     prog_bfs_modes :=
       [ [("He-3", (1%float, "β-"))];
         [];
         [("Ca-40", (0.8914%float, "β-")); ("Ar-40", (0.1086%float, "β+ & EC"))];
         [("Po-218", (1%float, "α"))] ];
     year_conv := 365.2422%float;
     ln2 := 0.6931471805599453%float |}.

(** The instances [Radionuclide("H-3")], [Radionuclide("He-3")],
    [Radionuclide("K-40")] and [Radionuclide("Rn-222")] over the sample. *)
Definition sample_H3 : Radionuclide :=
  {| radionuclide := Some "H-3";
     decay_constant := Some 1.7828715741004621e-09%float;
     prog_bf_mode := Some [("He-3", (1%float, "β-"))];
     data := Some sample_data |}.

Definition sample_He3 : Radionuclide :=
  {| radionuclide := Some "He-3";
     decay_constant := Some 0%float;
     prog_bf_mode := Some [];
     data := Some sample_data |}.

Definition sample_K40 : Radionuclide :=
  {| radionuclide := Some "K-40";
     decay_constant := Some 1.7557935885625657e-17%float;
     prog_bf_mode :=
       Some [("Ca-40", (0.8914%float, "β-")); ("Ar-40", (0.1086%float, "β+ & EC"))];
     data := Some sample_data |}.

Definition sample_Rn222 : Radionuclide :=
  {| radionuclide := Some "Rn-222";
     decay_constant := Some 2.0982180755947176e-06%float;
     prog_bf_mode := Some [("Po-218", (1%float, "α"))];
     data := Some sample_data |}.

(** The nuclides that tests/test_decayfunctions.py expects the parser to
    accept (lines 20-49). *)
Definition test_nuclides : list string :=
  ["H-3"; "Be-7"; "C-10"; "Ne-19"; "I-118"; "Pd-100"; "Cl-34m"; "I-118m";
   "Tb-156m"; "Tb-156n"].

(** ** Notions for the properties of the constructor and of [half_life] *)

(** The indices [l[i]] accepts: from [-len(l)] to [len(l) - 1]. *)
Definition in_range {A} (l : list A) (i : Z) : Prop :=
  (- Z.of_nat (length l) <= i < Z.of_nat (length l))%Z.

(** The position in a sequence of [n] items that the Python index [i]
    denotes: [i] itself, or [n + i] for a negative [i]. *)
Definition position (n : nat) (i : Z) : nat :=
  Z.to_nat (if (i <? 0)%Z then Z.of_nat n + i else i)%Z.

(** The name-to-index dictionary is the index of the nuclide list (spec §3,
    [index_of]): the index it gives a name is a position of the list, and
    the list holds that name there. *)
Definition indexes_radionuclides (d : DecayData) : Prop :=
  forall name idx, radionuclide_dict d !! name = Some idx ->
    (0 <= idx)%Z /\ radionuclides d !! Z.to_nat idx = Some name.

(** A dataset whose three tables agree: every listed nuclide has an index,
    and the index is one both [decay_consts] and [prog_bfs_modes] accept. *)
Definition consistent (d : DecayData) : Prop :=
  forall name, name ∈ radionuclides d ->
    exists idx, radionuclide_dict d !! name = Some idx /\
                in_range (decay_consts d) idx /\
                in_range (prog_bfs_modes d) idx.

(** A binary64 value that is [+0.0], a positive finite number or plus
    infinity. *)
Definition sf_nonneg (x : spec_float) : Prop :=
  match x with
  | S754_zero false | S754_infinity false | S754_finite false _ _ => True
  | _ => False
  end.

(** A string with no comma in it. *)
Fixpoint comma_free (s : string) : bool :=
  match s with
  | "" => true
  | String c s' => negb (Ascii.eqb c ",") && comma_free s'
  end.

(** The sample with two gaps: He-3 has no index, and the progeny table
    stops short of the index of Rn-222. *)
Definition sample_gaps : DecayData :=
  {| dataset := "icrp107";
     radionuclides := ["H-3"; "He-3"; "K-40"; "Rn-222"];
     radionuclide_dict :=
       <["H-3" := 0%Z]> (<["K-40" := 2%Z]> (<["Rn-222" := 3%Z]> ∅));
     decay_consts :=
       [1.7828715741004621e-09; 0; 1.7557935885625657e-17;
        2.0982180755947176e-06]%float;
     prog_bfs_modes :=
       [ [("He-3", (1%float, "β-"))];
         [];
         [("Ca-40", (0.8914%float, "β-")); ("Ar-40", (0.1086%float, "β+ & EC"))] ];
     year_conv := 365.2422%float;
     ln2 := 0.6931471805599453%float |}.

(** What [sample_H3] holds after a failed rebinding to Rn-222 over
    [sample_gaps]: the new name and constant, the old progeny and
    dataset. *)
Definition sample_half_rebound : Radionuclide :=
  {| radionuclide := Some "Rn-222";
     decay_constant := Some 2.0982180755947176e-06%float;
     prog_bf_mode := Some [("He-3", (1%float, "β-"))];
     data := Some sample_data |}.

(** The sample with the zero decay constant of He-3 stored as [-0.0]. *)
Definition sample_negative_zero : DecayData :=
  {| dataset := "icrp107";
     radionuclides := ["H-3"; "He-3"; "K-40"; "Rn-222"];
     radionuclide_dict :=
       <["H-3" := 0%Z]> (<["He-3" := 1%Z]> (<["K-40" := 2%Z]>
         (<["Rn-222" := 3%Z]> ∅)));
     decay_consts :=
       [1.7828715741004621e-09; neg_zero; 1.7557935885625657e-17;
        2.0982180755947176e-06]%float;
     prog_bfs_modes :=
       [ [("He-3", (1%float, "β-"))];
         [];
         [("Ca-40", (0.8914%float, "β-")); ("Ar-40", (0.1086%float, "β+ & EC"))];
         [("Po-218", (1%float, "α"))] ];
     year_conv := 365.2422%float;
     ln2 := 0.6931471805599453%float |}.

(** The sample with an infinite year length: one second is then [0.0]
    years. *)
Definition sample_endless_year : DecayData :=
  {| dataset := "icrp107";
     radionuclides := ["H-3"; "He-3"; "K-40"; "Rn-222"];
     radionuclide_dict :=
       <["H-3" := 0%Z]> (<["He-3" := 1%Z]> (<["K-40" := 2%Z]>
         (<["Rn-222" := 3%Z]> ∅)));
     decay_consts :=
       [1.7828715741004621e-09; 0; 1.7557935885625657e-17;
        2.0982180755947176e-06]%float;
     prog_bfs_modes :=
       [ [("He-3", (1%float, "β-"))];
         [];
         [("Ca-40", (0.8914%float, "β-")); ("Ar-40", (0.1086%float, "β+ & EC"))];
         [("Po-218", (1%float, "α"))] ];
     year_conv := infinity;
     ln2 := 0.6931471805599453%float |}.

(** ** Notions and samples for the properties of the solver *)

(** The sum of the contributions to [x] in a list. *)
Definition share (x : string) (cs : list (string * R)) : R :=
  inventory.sum_R (map snd (filter (fun c => c.1 = x) cs)).

Arguments share : simpl never.

(** A contribution multiplied by [k]. *)
Definition scaled (k : R) (c : string * R) : string * R := (c.1, (k * c.2)%R).

(** What one unit of [root] contributes to [x] after [t]. *)
Definition yield (limiting_form : list R -> R -> R) (d : inventory.ChainData)
    (t : R) (x root : string) : R :=
  share x (inventory.contributions limiting_form d t root 1).

(** [x] ends a path that starts at [root]. *)
Definition reaches (limiting_form : list R -> R -> R) (d : inventory.ChainData)
    (t : R) (x root : string) : Prop :=
  x ∈ (inventory.contributions limiting_form d t root 1).*1.

#[global] Instance reaches_dec (limiting_form : list R -> R -> R)
    (d : inventory.ChainData) (t : R) (x root : string) :
  Decision (reaches limiting_form d t x root).
Proof. unfold reaches. apply _. Defined.

(** What the quantities [roots] contribute to [x] in all. *)
Definition total (limiting_form : list R -> R -> R) (d : inventory.ChainData)
    (t : R) (x : string) (roots : list (string * R)) : R :=
  inventory.sum_R (map (fun r => (r.2 * yield limiting_form d t x r.1)%R) roots).

(** Stands in for the limiting form over datasets in which no two members
    of a chain share a decay constant: there the solver never consults
    it. *)
Definition no_limiting_form : list R -> R -> R := fun _ _ => 0%R.

(** H-3 and C-14 with their stable progeny.  12.32 years being the
    half-life of H-3 (spec §8) and 5700 years that of C-14, each decay
    constant is ln 2 over the half-life in seconds, a year being 365.2422
    days of 86400 seconds. *)
Definition sample_chains : inventory.ChainData :=
  {| inventory.dataset_id := "icrp107";
     inventory.decay_constant := fun n =>
       if String.eqb n "H-3" then (ln 2 / (12.32 * (365.2422 * 86400)))%R
       else if String.eqb n "C-14" then (ln 2 / (5700 * (365.2422 * 86400)))%R
       else 0%R;
     inventory.progeny := fun n =>
       if String.eqb n "H-3" then [("He-3", 1%R)]
       else if String.eqb n "C-14" then [("N-14", 1%R)]
       else [];
     inventory.year_length_days := 365.2422%R;
     inventory.max_depth := 2 |}.

(** [Inventory({'H-3': 10.0})] (tests/test_decayfunctions.py, line 340). *)
Definition sample_tritium : inventory.Inventory :=
  {| inventory.contents := {["H-3" := 10%R]};
     inventory.data := sample_chains |}.

(** [Inventory({'H-3': 1.0})] and [Inventory({'C-14': 1.0, 'H-3': 4.0})]
    (lines 248-249). *)
Definition sample_inv1 : inventory.Inventory :=
  {| inventory.contents := {["H-3" := 1%R]};
     inventory.data := sample_chains |}.

Definition sample_inv2 : inventory.Inventory :=
  {| inventory.contents := <["C-14" := 1%R]> {["H-3" := 4%R]};
     inventory.data := sample_chains |}.

(** * Properties *)

(** ** Binary64 arithmetic *)

Section Binary64.
Local Open Scope Z_scope.

(** Multiplying a finite binary64 number by 1.0 is exact: the product of
    the mantissas is the mantissa shifted by 52 bits, and rounding shifts it
    back with nothing lost. *)
Lemma SF64mul_1_l_finite (s : bool) (m : positive) (e : Z) :
  bounded prec emax m e = true ->
  SF64mul (S754_finite false 4503599627370496 (-52)) (S754_finite s m e)
  = S754_finite s m e.
Proof.
  intros Hb. unfold bounded, canonical_mantissa in Hb.
  apply andb_prop in Hb as [Hcanon Hmax].
  apply Z.eqb_eq in Hcanon.
  unfold SF64mul, SFmul. cbn [xorb].
  unfold binary_round_aux, shr_fexp.
  change (4503599627370496 * m)%positive
    with (Pos.iter xO m 52).
  cbn [Pos.iter Zdigits2 digits2_pos].
  rewrite !Pos2Z.inj_succ.
  set (digits := Z.pos (digits2_pos m)) in *.
  match goal with
  | |- context [shr ?mrs ?e0 (fexp prec emax ?a - ?b)] =>
      replace (fexp prec emax a - b) with 52 by (unfold fexp in *; lia)
  end.
  cbn [shr shr_record_of_loc SpecFloat.iter_pos shr_1 orb shr_m loc_of_shr_record
       round_nearest_even].
  replace (-52 + e + 52) with e by lia.
  cbn [Zdigits2]. fold digits. rewrite Hcanon, Z.sub_diag.
  cbn [shr shr_m]. rewrite Hmax. reflexivity.
Qed.

End Binary64.

(** [1.0 * x] is [x], for every float (NaN, infinities and zeros
    included). *)
Lemma float_mul_1_l (x : float) : (1 * x)%float = x.
Proof.
  apply Prim2SF_inj. rewrite mul_spec.
  pose proof (Prim2SF_valid x) as Hvalid.
  change (Prim2SF 1) with (S754_finite false 4503599627370496 (-52)).
  destruct (Prim2SF x) as [s|s| |s m e]; try reflexivity.
  apply SF64mul_1_l_finite, Hvalid.
Qed.

(** A float that compares equal to zero is one of the two zeros. *)
Lemma float_eqb_zero (x : float) :
  (x =? 0)%float = true -> exists s, Prim2SF x = S754_zero s.
Proof.
  rewrite FloatAxioms.eqb_spec. change (Prim2SF 0) with (S754_zero false).
  destruct (Prim2SF x) as [s|s| |s m e]; cbn.
  - eauto.
  - destruct s; discriminate.
  - discriminate.
  - destruct s; discriminate.
Qed.

(** A float above zero is a positive finite number or plus infinity. *)
Lemma float_pos_cases (x : float) :
  (0 <? x)%float = true ->
  Prim2SF x = S754_infinity false \/ exists m e, Prim2SF x = S754_finite false m e.
Proof.
  rewrite FloatAxioms.ltb_spec. change (Prim2SF 0) with (S754_zero false).
  destruct (Prim2SF x) as [s|s| |s m e]; cbn; try discriminate.
  - destruct s; [discriminate | auto].
  - destruct s; [discriminate | eauto].
Qed.

(** IEEE-754 division of a positive number by a zero: an infinity with the
    sign of the zero. *)
Lemma float_div_pos_zero (x z : float) :
  (0 <? x)%float = true -> (z =? 0)%float = true ->
  abs (x / z) = infinity /\ (z = 0%float -> (x / z)%float = infinity).
Proof.
  intros Hx Hz.
  apply float_eqb_zero in Hz as [sz Hz].
  assert (Hdiv : Prim2SF (x / z) = S754_infinity sz).
  { rewrite div_spec, Hz.
    destruct (float_pos_cases x Hx) as [-> | (m & e & ->)]; reflexivity. }
  split.
  - apply Prim2SF_inj. rewrite abs_spec, Hdiv. reflexivity.
  - intros ->. apply Prim2SF_inj. rewrite Hdiv.
    change (Prim2SF 0) with (S754_zero false) in Hz.
    injection Hz as <-. reflexivity.
Qed.

(** The two zeros are the only floats that compare equal to zero. *)
Lemma float_zero_cases (z : float) :
  (z =? 0)%float = true -> z = 0%float \/ z = neg_zero.
Proof.
  intros Hz. apply float_eqb_zero in Hz as [[|] Hz]; [right|left];
    apply Prim2SF_inj; rewrite Hz; reflexivity.
Qed.

(** A finite binary64 number compares equal to itself: only NaN does
    not. *)
Lemma SFeqb_finite_refl (s : bool) (m : positive) (e : Z) :
  SFeqb (S754_finite s m e) (S754_finite s m e) = true.
Proof.
  unfold SFeqb, SFcompare.
  destruct s; rewrite Z.compare_refl, ?Pos.compare_refl; reflexivity.
Qed.

(** Floats with different binary64 representations are different. *)
Lemma float_ne (x y : float) : Prim2SF x <> Prim2SF y -> x <> y.
Proof. intros Hne ->. by apply Hne. Qed.

(** IEEE-754 division by a zero, for every numerator: an infinity whose
    sign is the product of the two signs, and NaN for a numerator that is
    zero or NaN; never a finite number. *)
Lemma float_div_zero (x z : float) :
  (z =? 0)%float = true ->
  ((x / z)%float = infinity \/ (x / z)%float = neg_infinity \/
   (x / z)%float = nan) /\
  ((0 <? x)%float = true ->
   (z = 0%float -> (x / z)%float = infinity) /\
   (z = neg_zero -> (x / z)%float = neg_infinity)) /\
  ((x <? 0)%float = true ->
   (z = 0%float -> (x / z)%float = neg_infinity) /\
   (z = neg_zero -> (x / z)%float = infinity)) /\
  ((x =? 0)%float = true \/ is_nan x = true -> (x / z)%float = nan).
Proof.
  intros Hz.
  assert (Hquot : forall q : float,
            Prim2SF q = SFdiv prec emax (Prim2SF x) (Prim2SF z) ->
            (x / z)%float = q).
  { intros q Hq. apply Prim2SF_inj. by rewrite div_spec. }
  assert (Hzeros : 0%float <> neg_zero) by (apply float_ne; discriminate).
  unfold is_nan. rewrite !FloatAxioms.ltb_spec, !FloatAxioms.eqb_spec.
  change (Prim2SF 0) with (S754_zero false).
  destruct (float_zero_cases z Hz) as [-> | ->];
    [change (Prim2SF 0) with (S754_zero false) in Hquot
    |change (Prim2SF neg_zero) with (S754_zero true) in Hquot];
    destruct (Prim2SF x) as [[|]|[|]| |[|] m e];
    rewrite ?SFeqb_finite_refl; cbn -[SFdiv].
  all: split_and!.
  all: try (intros ?; split; intros ?).
  all: try (intros [?|?]).
  all: try discriminate.
  all: try congruence.
  all: try (apply Hquot; reflexivity).
  all: try (left; apply Hquot; reflexivity).
  all: try (right; left; apply Hquot; reflexivity).
  all: try (right; right; apply Hquot; reflexivity).
Qed.

(** ** Python containers *)

(** [l[i]] returns [x] exactly when [i] is between [-len(l)] and
    [len(l) - 1] and [x] is the item at the position [i] denotes. *)
Lemma py_index_position {A} (l : list A) (i : Z) (x : A) :
  py_index l i = Ok x <->
  in_range l i /\ l !! position (length l) i = Some x.
Proof.
  unfold py_index, in_range, position.
  set (n := Z.of_nat (length l)).
  destruct (Z.ltb_spec i 0) as [Hneg | Hnonneg].
  - replace (n + i)%Z with (i + n)%Z by lia.
    destruct (Z.leb_spec 0 (i + n)), (Z.ltb_spec (i + n) n); cbn.
    + destruct (l !! Z.to_nat (i + n)) as [y|] eqn:Hy.
      * split; [intros [= ->]; split; [lia | done] | intros [_ [= ->]]; done].
      * apply lookup_ge_None in Hy. lia.
    + split; [done | lia].
    + split; [done | lia].
    + split; [done | lia].
  - destruct (Z.leb_spec 0 i), (Z.ltb_spec i n); cbn.
    + destruct (l !! Z.to_nat i) as [y|] eqn:Hy.
      * split; [intros [= ->]; split; [lia | done] | intros [_ [= ->]]; done].
      * apply lookup_ge_None in Hy. lia.
    + split; [done | lia].
    + split; [done | lia].
    + split; [done | lia].
Qed.

(** In a [dict] (no key twice), the value under the key of the [i]-th entry
    is the value of the [i]-th entry. *)
Lemma pydict_get_lookup {V} (d : pydict V) (i : nat) (k : string) (v : V) :
  NoDup (keys d) -> d !! i = Some (k, v) -> pydict_get d k = Ok v.
Proof.
  revert i. induction d as [|[k' v'] d IH]; intros i Hnodup Hi; [done|].
  apply NoDup_cons in Hnodup as [Hfresh Hnodup].
  destruct i as [|i]; cbn in *.
  - injection Hi as -> ->. by rewrite String.eqb_refl.
  - destruct (String.eqb_spec k' k) as [->|_]; [|by eapply IH].
    exfalso. apply Hfresh.
    change k with (fst (k, v)). apply list_elem_of_fmap_2.
    by eapply list_elem_of_lookup_2.
Qed.

(** The [i]-th entry of a list of keyed pairs, read off its three
    projections. *)
Lemma lookup_entry {A B C} (l : list (A * (B * C))) (i : nat) (a : A) (b : B)
    (c : C) :
  l !! i = Some (a, (b, c)) <->
  map fst l !! i = Some a /\ map fst (map snd l) !! i = Some b /\
  map snd (map snd l) !! i = Some c.
Proof.
  rewrite !list_lookup_fmap.
  destruct (l !! i) as [[a' [b' c']]|]; cbn.
  - split.
    + by intros [= -> -> ->].
    + by intros ([= ->] & [= ->] & [= ->]).
  - split; [discriminate|]. intros (Ha & _). discriminate.
Qed.

(** ** The constructor *)

Section RadionuclideProperties.
Context {U : Utils}.

(** If parsing raises, [__init__] raises the same exception and has assigned
    nothing. *)
Lemma init_parse_raises (raw : string) (d : DecayData) (self : Radionuclide)
    (e : exception) :
  parse_radionuclide raw (radionuclides d) (dataset d) = Raise e ->
  __init__ raw d self = (self, Raise e).
Proof. intros Hparse. unfold __init__, mbind, lift. by rewrite Hparse. Qed.

(** A constructor call that returns has parsed the identifier, found its
    index and read both tables at that index; the instance holds exactly
    these four values. *)
Lemma new_Radionuclide_inv (raw : string) (d : DecayData) (r : Radionuclide) :
  new_Radionuclide raw d = Ok r ->
  exists name idx dc pbm,
    parse_radionuclide raw (radionuclides d) (dataset d) = Ok name /\
    dict_get (radionuclide_dict d) name = Ok idx /\
    py_index (decay_consts d) idx = Ok dc /\
    py_index (prog_bfs_modes d) idx = Ok pbm /\
    r = {| radionuclide := Some name; decay_constant := Some dc;
           prog_bf_mode := Some pbm; data := Some d |}.
Proof.
  unfold new_Radionuclide, __init__, mbind, lift, read.
  destruct (parse_radionuclide raw (radionuclides d) (dataset d))
    as [name|e] eqn:Hparse; [|discriminate].
  cbn. destruct (dict_get (radionuclide_dict d) name) as [idx|e] eqn:Hidx;
    [|discriminate].
  destruct (py_index (decay_consts d) idx) as [dc|e] eqn:Hdc; [|discriminate].
  cbn. destruct (py_index (prog_bfs_modes d) idx) as [pbm|e] eqn:Hpbm;
    [|discriminate].
  cbn. intros [= <-]. by exists name, idx, dc, pbm.
Qed.

(** C10.  A constructor call that returns leaves an instance whose
    [radionuclide] is the parsed form of the argument, and whose
    [decay_constant] and [prog_bf_mode] are the items that [decay_consts]
    and [prog_bfs_modes] hold at the position of the index the dataset's
    dictionary gives that identifier; [data] is the dataset.  The
    identifier is a member of the dataset's nuclide list: it stands in the
    list at that same position when the dictionary is the index of the
    list, and it is a member as well when the parser returns listed
    nuclides only.  If the argument does not parse, [__init__] raises the
    parser's exception with no attribute assigned, and the constructor call
    raises it. *)
Theorem init_establishes_invariant (raw : string) (d : DecayData) :
  (forall r, new_Radionuclide raw d = Ok r ->
     exists name idx dc pbm,
       parse_radionuclide raw (radionuclides d) (dataset d) = Ok name /\
       radionuclide r = Some name /\
       radionuclide_dict d !! name = Some idx /\
       in_range (decay_consts d) idx /\
       decay_consts d !! position (length (decay_consts d)) idx = Some dc /\
       decay_constant r = Some dc /\
       in_range (prog_bfs_modes d) idx /\
       prog_bfs_modes d !! position (length (prog_bfs_modes d)) idx
       = Some pbm /\
       prog_bf_mode r = Some pbm /\
       data r = Some d /\
       (indexes_radionuclides d ->
        radionuclides d !! Z.to_nat idx = Some name /\
        decay_consts d !! Z.to_nat idx = Some dc /\
        prog_bfs_modes d !! Z.to_nat idx = Some pbm /\
        name ∈ radionuclides d) /\
       (returns_listed_nuclide -> name ∈ radionuclides d)) /\
  (forall e, parse_radionuclide raw (radionuclides d) (dataset d) = Raise e ->
     __init__ raw d blank = (blank, Raise e) /\
     new_Radionuclide raw d = Raise e).
Proof.
  split.
  - intros r Hnew.
    destruct (new_Radionuclide_inv raw d r Hnew)
      as (name & idx & dc & pbm & Hparse & Hidx & Hdc & Hpbm & ->).
    apply py_index_position in Hdc as [Hdc_range Hdc].
    apply py_index_position in Hpbm as [Hpbm_range Hpbm].
    unfold dict_get in Hidx.
    destruct (radionuclide_dict d !! name) as [idx'|] eqn:Hdict;
      [injection Hidx as ->|discriminate].
    exists name, idx, dc, pbm. cbn. split_and!; try done.
    + intros Hindex. destruct (Hindex name idx Hdict) as [Hnonneg Hname].
      unfold position in Hdc, Hpbm.
      destruct (Z.ltb_spec idx 0) as [Hneg|_]; [lia|].
      split_and!; try done. by eapply list_elem_of_lookup_2.
    + intros Hlisted. by eapply Hlisted.
  - intros e Hparse. unfold new_Radionuclide.
    by rewrite (init_parse_raises raw d blank e Hparse).
Qed.

(** C9.  The representation of a constructed instance is "Radionuclide: ",
    the identifier it is bound to, ", Decay dataset: " and the identifier
    of its dataset. *)
Theorem repr_format (raw : string) (d : DecayData) (r : Radionuclide) :
  new_Radionuclide raw d = Ok r ->
  exists name,
    parse_radionuclide raw (radionuclides d) (dataset d) = Ok name /\
    radionuclide r = Some name /\
    data r = Some d /\
    __repr__ r = Ok ("Radionuclide: " ++ name ++ ", Decay dataset: " ++ dataset d).
Proof.
  intros Hnew.
  destruct (new_Radionuclide_inv raw d r Hnew)
    as (name & idx & dc & pbm & Hparse & _ & _ & _ & ->).
  by exists name.
Qed.

(** C5.  On a constructed instance the three accessors return lists as long
    as the dataset's progeny map of the nuclide, and position by position
    they are the key, the branching fraction and the decay mode of the
    map's entries, in the map's order; the map being a [dict], the fraction
    and mode at a position are the ones stored under the progeny at that
    position. *)
Theorem progeny_accessors_aligned (raw : string) (d : DecayData)
    (r : Radionuclide) :
  new_Radionuclide raw d = Ok r ->
  exists name idx pbm ps bfs modes,
    radionuclide r = Some name /\
    dict_get (radionuclide_dict d) name = Ok idx /\
    py_index (prog_bfs_modes d) idx = Ok pbm /\
    progeny r = Ok ps /\
    branching_fractions r = Ok bfs /\
    decay_modes r = Ok modes /\
    length ps = length pbm /\
    length bfs = length pbm /\
    length modes = length pbm /\
    (forall i p bf mode,
       pbm !! i = Some (p, (bf, mode)) <->
       ps !! i = Some p /\ bfs !! i = Some bf /\ modes !! i = Some mode) /\
    (NoDup (keys pbm) ->
     forall i p bf mode,
       ps !! i = Some p -> bfs !! i = Some bf -> modes !! i = Some mode ->
       pydict_get pbm p = Ok (bf, mode)).
Proof.
  intros Hnew.
  destruct (new_Radionuclide_inv raw d r Hnew)
    as (name & idx & dc & pbm & _ & Hidx & _ & Hpbm & ->).
  exists name, idx, pbm, (keys pbm), (map fst (values pbm)),
    (map snd (values pbm)).
  pose proof (lookup_entry pbm) as Haligned.
  unfold keys, values in *. rewrite !length_map.
  split_and!; try done.
  intros Hnodup i p bf mode Hp Hbf Hmode.
  apply (pydict_get_lookup pbm i); [done|]. by apply Haligned.
Qed.

(** In seconds no conversion takes place: [conv] is [1.0], and [1.0 * ln2]
    is [ln2]. *)
Lemma half_life_seconds (raw : string) (d : DecayData) (r : Radionuclide)
    (dc : float) :
  new_Radionuclide raw d = Ok r ->
  decay_constant r = Some dc ->
  half_life r "s" = Ok (ln2 d / dc)%float.
Proof.
  intros Hnew Hdc.
  destruct (new_Radionuclide_inv raw d r Hnew)
    as (name & idx & dc' & pbm & _ & _ & _ & _ & ->).
  cbn in Hdc. injection Hdc as ->.
  unfold half_life. cbn. by rewrite float_mul_1_l.
Qed.

(** In another unit [conv] is what the converter makes of one second. *)
Lemma half_life_converted (raw : string) (d : DecayData) (r : Radionuclide)
    (dc : float) (units : string) (c : float) :
  new_Radionuclide raw d = Ok r ->
  decay_constant r = Some dc ->
  units <> "s" ->
  time_unit_conv 1%float "s" units (year_conv d) = Ok c ->
  half_life r units = Ok (c * ln2 d / dc)%float.
Proof.
  intros Hnew Hdc Hunits Hconv.
  destruct (new_Radionuclide_inv raw d r Hnew)
    as (name & idx & dc' & pbm & _ & _ & _ & _ & ->).
  cbn in Hdc. injection Hdc as ->.
  unfold half_life.
  destruct (String.eqb_spec units "s") as [->|_]; [done|].
  cbn. by rewrite Hconv.
Qed.

(** What [half_life] computes on a constructed instance:
    [half_life("s")] is exactly [ln2 / decay_constant], with no conversion
    applied, and for any other unit the converter accepts it is
    [c * ln2 / decay_constant] with
    [c = time_unit_conv(1.0, "s", units, year_conv)]: the converter is
    applied to one second, not to the quotient.  [ln2] is the dataset's
    constant; the decay constant may be any float. *)
Lemma half_life_value (raw : string) (d : DecayData) (r : Radionuclide)
    (dc : float) :
  new_Radionuclide raw d = Ok r ->
  decay_constant r = Some dc ->
  half_life r "s" = Ok (ln2 d / dc)%float /\
  (forall units c,
     units <> "s" ->
     time_unit_conv 1%float "s" units (year_conv d) = Ok c ->
     half_life r units = Ok (c * ln2 d / dc)%float).
Proof.
  intros Hnew Hdc. split.
  - by eapply half_life_seconds.
  - intros units c Hunits Hconv. by eapply half_life_converted.
Qed.

(** C2.  On a constructed instance whose decay constant is
    zero (either [0.0] or [-0.0]), [half_life] divides by it without a
    guard and raises nothing of its own: it returns the binary64 quotient
    of [ln2] (in seconds) or of [c * ln2] (in a unit the converter accepts,
    [c] being what it makes of one second) by that zero.  The quotient is
    never finite: it is plus infinity for a positive numerator over [0.0],
    minus infinity for a positive numerator over [-0.0], the opposite
    infinities for a negative numerator, and NaN for a numerator that is
    zero or NaN. *)
Theorem half_life_of_stable_divides_by_zero (raw : string) (d : DecayData)
    (r : Radionuclide) (dc : float) :
  new_Radionuclide raw d = Ok r ->
  decay_constant r = Some dc ->
  (dc =? 0)%float = true ->
  (dc = 0%float \/ dc = neg_zero) /\
  (forall units n,
     (units = "s" /\ n = ln2 d) \/
     (exists c, units <> "s" /\
        time_unit_conv 1%float "s" units (year_conv d) = Ok c /\
        n = (c * ln2 d)%float) ->
     half_life r units = Ok (n / dc)%float /\
     ((n / dc)%float = infinity \/ (n / dc)%float = neg_infinity \/
      (n / dc)%float = nan) /\
     ((0 <? n)%float = true ->
      (dc = 0%float -> (n / dc)%float = infinity) /\
      (dc = neg_zero -> (n / dc)%float = neg_infinity)) /\
     ((n <? 0)%float = true ->
      (dc = 0%float -> (n / dc)%float = neg_infinity) /\
      (dc = neg_zero -> (n / dc)%float = infinity)) /\
     ((n =? 0)%float = true \/ is_nan n = true -> (n / dc)%float = nan)).
Proof.
  intros Hnew Hdc Hzero. split; [by apply float_zero_cases|].
  intros units n Hunits. split.
  - destruct Hunits as [[-> ->] | (c & Hunits & Hconv & ->)].
    + by eapply half_life_seconds.
    + by eapply half_life_converted.
  - by apply float_div_zero.
Qed.

End RadionuclideProperties.

(** C6.  No name [change] is bound on a [Radionuclide]: whatever attributes
    the instance holds, looking [change] up raises [AttributeError]. *)
Theorem change_is_not_an_attribute (self : Radionuclide) :
  resolve self "change" = Raise (AttributeError "change").
Proof.
  destruct self as [[name|] [dc|] [pbm|] [d|]]; reflexivity.
Qed.

(** ** Time units *)

Lemma pydict_get_Ok {V} (d : pydict V) (k : string) :
  k ∈ keys d -> exists v, pydict_get d k = Ok v.
Proof.
  induction d as [|[k' v'] d IH]; cbn; intros Hin.
  - by apply elem_of_nil in Hin.
  - destruct (String.eqb_spec k' k) as [->|Hne]; [eauto|].
    apply IH. apply elem_of_cons in Hin as [->|Hin]; done.
Qed.

Lemma pydict_get_Raise {V} (d : pydict V) (k : string) :
  k ∉ keys d -> pydict_get d k = Raise (KeyError k).
Proof.
  induction d as [|[k' v'] d IH]; cbn; intros Hnotin; [done|].
  destruct (String.eqb_spec k' k) as [->|Hne].
  - exfalso. apply Hnotin. apply elem_of_cons. by left.
  - apply IH. intros Hin. apply Hnotin. apply elem_of_cons. by right.
Qed.

(** The converter's dictionary has exactly the recognized tokens as keys,
    whatever the year length. *)
Lemma seconds_per_unit_keys (year_conv : float) :
  keys (utils.seconds_per_unit year_conv) = utils.recognized_units.
Proof. reflexivity. Qed.

(** C8.  [time_unit_conv] raises if and only if one of the two tokens is
    not recognized, and what it raises is [InvalidUnit] of such a token (the
    from-unit's when that one is not recognized); on two recognized tokens
    it returns the value times the from-unit's seconds-per-unit constant,
    divided by the to-unit's. *)
Theorem time_unit_conv_invalid_unit (value : float) (units_from units_to : string)
    (year_conv : float) :
  ((exists e, utils.time_unit_conv value units_from units_to year_conv = Raise e)
   <-> units_from ∉ utils.recognized_units \/ units_to ∉ utils.recognized_units) /\
  (units_from ∉ utils.recognized_units ->
   utils.time_unit_conv value units_from units_to year_conv
   = Raise (InvalidUnit units_from)) /\
  (units_from ∈ utils.recognized_units -> units_to ∉ utils.recognized_units ->
   utils.time_unit_conv value units_from units_to year_conv
   = Raise (InvalidUnit units_to)) /\
  (units_from ∈ utils.recognized_units -> units_to ∈ utils.recognized_units ->
   exists from_seconds to_seconds,
     pydict_get (utils.seconds_per_unit year_conv) units_from = Ok from_seconds /\
     pydict_get (utils.seconds_per_unit year_conv) units_to = Ok to_seconds /\
     utils.time_unit_conv value units_from units_to year_conv
     = Ok (value * from_seconds / to_seconds)%float).
Proof.
  rewrite <- (seconds_per_unit_keys year_conv). unfold utils.time_unit_conv.
  set (conv := utils.seconds_per_unit year_conv).
  destruct (decide (units_from ∈ keys conv)) as [Hfrom|Hfrom];
    destruct (decide (units_to ∈ keys conv)) as [Hto|Hto].
  - destruct (pydict_get_Ok conv units_from Hfrom) as [sf Hsf].
    destruct (pydict_get_Ok conv units_to Hto) as [st Hst].
    rewrite Hsf, Hst. split_and!; try done.
    + split; [by intros [e ?]|by intros [?|?]].
    + by exists sf, st.
  - destruct (pydict_get_Ok conv units_from Hfrom) as [sf Hsf].
    rewrite Hsf, (pydict_get_Raise conv units_to Hto).
    split_and!; try done. split; eauto.
  - rewrite (pydict_get_Raise conv units_from Hfrom).
    split_and!; try done. split; eauto.
  - rewrite (pydict_get_Raise conv units_from Hfrom).
    split_and!; try done. split; eauto.
Qed.

(** ** Identifiers *)

Section Characters.
Import utils.

(** Facts about single characters, each checked on the 256 of them. *)
Ltac by_cases_on c :=
  destruct c as [[] [] [] [] [] [] [] []]; vm_compute; try congruence; auto.

Lemma upper_is_letter (c : ascii) : is_upper c = true -> is_letter c = true.
Proof. unfold is_letter. by intros ->. Qed.

Lemma lower_is_letter (c : ascii) : is_lower c = true -> is_letter c = true.
Proof. unfold is_letter. intros ->. by rewrite orb_true_r. Qed.

Lemma suffix_letter_is_letter (c : ascii) :
  is_suffix_letter c = true -> is_letter c = true.
Proof. by_cases_on c. Qed.

Lemma letter_not_digit (c : ascii) : is_letter c = true -> is_digit c = false.
Proof. by_cases_on c. Qed.

Lemma digit_not_letter (c : ascii) : is_digit c = true -> is_letter c = false.
Proof. by_cases_on c. Qed.

Lemma upper_not_suffix_letter (c : ascii) :
  is_upper c = true -> is_suffix_letter c = false.
Proof. by_cases_on c. Qed.

(** A mass number does not start with a hyphen, so none is skipped in the
    layout without one. *)
Lemma digit_not_hyphen (c : ascii) (s rest : string) :
  s = String c rest ->
  is_digit c = true ->
  match s with
  | String "-" rest' => rest'
  | _ => s
  end = s.
Proof. intros ->. by_cases_on c. Qed.

Lemma append_nil_l (s : string) : "" ++ s = s.
Proof. reflexivity. Qed.

Lemma append_cons (c : ascii) (s rest : string) :
  String c s ++ rest = String c (s ++ rest).
Proof. reflexivity. Qed.

Lemma span_append (p : ascii -> bool) (s rest : string) :
  all_chars p s = true ->
  match rest with
  | "" => True
  | String c _ => p c = false
  end ->
  span p (s ++ rest) = (s, rest).
Proof.
  intros Hall Hrest.
  induction s as [|c s IH]; cbn [all_chars] in Hall.
  - rewrite append_nil_l. destruct rest as [|c rest]; [done|].
    cbn. by rewrite Hrest.
  - apply andb_prop in Hall as [Hc Hall].
    rewrite append_cons. cbn. by rewrite Hc, (IH Hall).
Qed.

Lemma symbol_letters (s : string) :
  is_symbol s = true ->
  all_chars is_letter s = true /\
  exists c s', s = String c s' /\ is_upper c = true.
Proof.
  destruct s as [|a [|b [|c s]]]; cbn; try discriminate.
  - intros Ha. rewrite (upper_is_letter a Ha). eauto.
  - intros [Ha Hb]%andb_prop.
    rewrite (upper_is_letter a Ha), (lower_is_letter b Hb). eauto.
Qed.

Lemma mass_digits (s : string) :
  is_mass s = true ->
  all_chars is_digit s = true /\
  exists c s', s = String c s' /\ is_digit c = true.
Proof.
  unfold is_mass. intros [[Hall Hmin]%andb_prop _]%andb_prop.
  split; [done|]. destruct s as [|c s]; [discriminate|].
  cbn in Hall. apply andb_prop in Hall as [Hc _]. eauto.
Qed.

Lemma suffix_cases (s : string) :
  is_suffix s = true ->
  s = "" \/ exists c, s = String c "" /\ is_suffix_letter c = true.
Proof.
  destruct s as [|c [|c' s]]; cbn; [auto|eauto|discriminate].
Qed.

(** The components [split_identifier] returns have passed its three
    checks. *)
Lemma split_identifier_checked (raw symbol mass suffix : string) :
  split_identifier raw = Some (symbol, mass, suffix) ->
  is_symbol symbol = true /\ is_mass mass = true /\ is_suffix suffix = true.
Proof.
  unfold split_identifier. destruct raw as [|c raw]; [discriminate|].
  destruct (if is_digit c then _ else _) as [[symbol' mass'] suffix'].
  destruct (is_symbol symbol') eqn:Hsymbol; [|discriminate].
  destruct (is_mass mass') eqn:Hmass; [|discriminate].
  destruct (is_suffix suffix') eqn:Hsuffix; [|discriminate].
  cbn. by intros [= <- <- <-].
Qed.

(** The layout [Symbol-Mass[Suffix]] splits into its components. *)
Lemma split_hyphenated (symbol mass suffix : string) :
  is_symbol symbol = true -> is_mass mass = true -> is_suffix suffix = true ->
  split_identifier (symbol ++ "-" ++ mass ++ suffix) = Some (symbol, mass, suffix).
Proof.
  intros Hsymbol Hmass Hsuffix.
  destruct (symbol_letters symbol Hsymbol) as (Hletters & a & symbol' & Heq & Ha).
  destruct (mass_digits mass Hmass) as (Hdigits & _).
  unfold split_identifier. rewrite Heq at 1. rewrite append_cons.
  rewrite (letter_not_digit a (upper_is_letter a Ha)).
  rewrite (span_append is_letter symbol ("-" ++ mass ++ suffix) Hletters);
    [|done].
  rewrite append_cons, append_nil_l.
  rewrite (span_append is_digit mass suffix Hdigits).
  - by rewrite Hsymbol, Hmass, Hsuffix.
  - destruct (suffix_cases suffix Hsuffix) as [->|(x & -> & Hx)]; [done|].
    apply letter_not_digit. by apply suffix_letter_is_letter.
Qed.

(** The layout [SymbolMass[Suffix]] splits into the same components. *)
Lemma split_unhyphenated (symbol mass suffix : string) :
  is_symbol symbol = true -> is_mass mass = true -> is_suffix suffix = true ->
  split_identifier (symbol ++ mass ++ suffix) = Some (symbol, mass, suffix).
Proof.
  intros Hsymbol Hmass Hsuffix.
  destruct (symbol_letters symbol Hsymbol) as (Hletters & a & symbol' & Heq & Ha).
  destruct (mass_digits mass Hmass) as (Hdigits & m & mass' & Hmeq & Hm).
  unfold split_identifier. rewrite Heq at 1. rewrite append_cons.
  rewrite (letter_not_digit a (upper_is_letter a Ha)).
  rewrite (span_append is_letter symbol (mass ++ suffix) Hletters).
  2:{ rewrite Hmeq, append_cons. by apply digit_not_letter. }
  rewrite (digit_not_hyphen m (mass ++ suffix) (mass' ++ suffix));
    [|by rewrite Hmeq|done].
  rewrite (span_append is_digit mass suffix Hdigits).
  - by rewrite Hsymbol, Hmass, Hsuffix.
  - destruct (suffix_cases suffix Hsuffix) as [->|(x & -> & Hx)]; [done|].
    apply letter_not_digit. by apply suffix_letter_is_letter.
Qed.

(** The layout [Mass[Suffix]Symbol] splits into the same components. *)
Lemma split_mass_first (symbol mass suffix : string) :
  is_symbol symbol = true -> is_mass mass = true -> is_suffix suffix = true ->
  split_identifier (mass ++ suffix ++ symbol) = Some (symbol, mass, suffix).
Proof.
  intros Hsymbol Hmass Hsuffix.
  destruct (symbol_letters symbol Hsymbol) as (Hletters & a & symbol' & Heq & Ha).
  destruct (mass_digits mass Hmass) as (Hdigits & m & mass' & Hmeq & Hm).
  unfold split_identifier. rewrite Hmeq at 1. rewrite append_cons.
  rewrite Hm.
  destruct (suffix_cases suffix Hsuffix) as [->|(x & -> & Hx)].
  - rewrite append_nil_l.
    rewrite (span_append is_digit mass symbol Hdigits).
    2:{ rewrite Heq. apply letter_not_digit. by apply upper_is_letter. }
    rewrite Heq at 1. rewrite (upper_not_suffix_letter a Ha).
    by rewrite Hsymbol, Hmass.
  - rewrite append_cons, append_nil_l.
    rewrite (span_append is_digit mass (String x symbol) Hdigits).
    2:{ apply letter_not_digit. by apply suffix_letter_is_letter. }
    rewrite Hx. by rewrite Hsymbol, Hmass, Hsuffix.
Qed.

End Characters.

(** The parser modelled from the spec honours the contract [__init__]
    relies on. *)
Lemma utils_returns_listed_nuclide : @returns_listed_nuclide imported_utils.
Proof.
  intros raw l ds name. cbn. unfold utils.parse_radionuclide.
  destruct (utils.split_identifier raw) as [[[symbol mass] suffix]|];
    [|discriminate].
  case_bool_decide as Hin; [|discriminate]. by intros [= <-].
Qed.

(** [parse_radionuclide] in terms of the split. *)
Lemma parse_radionuclide_split (raw : string) (radionuclides : list string)
    (dataset : string) :
  utils.parse_radionuclide raw radionuclides dataset =
  match utils.split_identifier raw with
  | Some (symbol, mass, suffix) =>
      if bool_decide (utils.canonical symbol mass suffix ∈ radionuclides)
      then Ok (utils.canonical symbol mass suffix)
      else Raise (InvalidIdentifier raw dataset)
  | None => Raise (InvalidIdentifier raw dataset)
  end.
Proof.
  unfold utils.parse_radionuclide.
  by destruct (utils.split_identifier raw) as [[[symbol mass] suffix]|].
Qed.

(** C7.  Canonicalization is idempotent: what it returns, it returns
    unchanged when applied again.  For a symbol, mass number and suffix
    whose canonical identifier [Symbol-Mass[Suffix]] is one of the dataset's
    nuclides, that identifier and its two alternate spellings
    [SymbolMass[Suffix]] and [Mass[Suffix]Symbol] all canonicalize to it;
    when it is not one of the dataset's nuclides, all three are rejected. *)
Theorem canonicalization_idempotent (radionuclides : list string)
    (dataset : string) :
  (forall raw name,
     utils.parse_radionuclide raw radionuclides dataset = Ok name ->
     utils.parse_radionuclide name radionuclides dataset = Ok name) /\
  (forall symbol mass suffix,
     utils.is_symbol symbol = true ->
     utils.is_mass mass = true ->
     utils.is_suffix suffix = true ->
     let name := utils.canonical symbol mass suffix in
     (name ∈ radionuclides ->
      utils.parse_radionuclide name radionuclides dataset = Ok name /\
      utils.parse_radionuclide (symbol ++ mass ++ suffix) radionuclides dataset
      = Ok name /\
      utils.parse_radionuclide (mass ++ suffix ++ symbol) radionuclides dataset
      = Ok name) /\
     (name ∉ radionuclides ->
      utils.parse_radionuclide name radionuclides dataset
      = Raise (InvalidIdentifier name dataset) /\
      utils.parse_radionuclide (symbol ++ mass ++ suffix) radionuclides dataset
      = Raise (InvalidIdentifier (symbol ++ mass ++ suffix) dataset) /\
      utils.parse_radionuclide (mass ++ suffix ++ symbol) radionuclides dataset
      = Raise (InvalidIdentifier (mass ++ suffix ++ symbol) dataset))).
Proof.
  assert (Hthree : forall symbol mass suffix,
    utils.is_symbol symbol = true ->
    utils.is_mass mass = true ->
    utils.is_suffix suffix = true ->
    forall raw,
      raw = utils.canonical symbol mass suffix \/
      raw = symbol ++ mass ++ suffix \/ raw = mass ++ suffix ++ symbol ->
      utils.split_identifier raw = Some (symbol, mass, suffix)).
  { intros symbol mass suffix Hsymbol Hmass Hsuffix raw [->|[->| ->]].
    - by apply split_hyphenated.
    - by apply split_unhyphenated.
    - by apply split_mass_first. }
  split.
  - intros raw name Hparse.
    pose proof Hparse as Hraw. rewrite parse_radionuclide_split in Hraw.
    destruct (utils.split_identifier raw) as [[[symbol mass] suffix]|]
      eqn:Hsplit; [|discriminate].
    case_bool_decide as Hin; [|discriminate]. injection Hraw as <-.
    destruct (split_identifier_checked raw symbol mass suffix Hsplit)
      as (Hsymbol & Hmass & Hsuffix).
    rewrite parse_radionuclide_split, (Hthree symbol mass suffix); auto.
    by rewrite bool_decide_eq_true_2.
  - intros symbol mass suffix Hsymbol Hmass Hsuffix name.
    split; intros Hin; split_and!;
      rewrite parse_radionuclide_split, (Hthree symbol mass suffix); auto;
      fold name.
    all: first [by rewrite bool_decide_eq_true_2
               |by rewrite bool_decide_eq_false_2].
Qed.

(** ** The fixtures of the tests and docstrings *)

(** tests/test_decayfunctions.py, lines 20-49: every spelling is
    re-formatted to the canonical identifier. *)
Example parse_fixtures_accepted :
  map (fun raw => utils.parse_radionuclide raw test_nuclides "icrp107")
    ["H-3"; "H3"; "3H"; "Be-7"; "Be7"; "7Be"; "C-10"; "C10"; "10C";
     "Ne-19"; "Ne19"; "19Ne"; "I-118"; "I118"; "118I";
     "Pd-100"; "Pd100"; "100Pd"; "Cl-34m"; "Cl34m"; "34mCl";
     "I-118m"; "I118m"; "118mI"; "Tb-156m"; "Tb156m"; "156mTb";
     "Tb-156n"; "Tb156n"; "156nTb"]
  = map Ok
    ["H-3"; "H-3"; "H-3"; "Be-7"; "Be-7"; "Be-7"; "C-10"; "C-10"; "C-10";
     "Ne-19"; "Ne-19"; "Ne-19"; "I-118"; "I-118"; "I-118";
     "Pd-100"; "Pd-100"; "Pd-100"; "Cl-34m"; "Cl-34m"; "Cl-34m";
     "I-118m"; "I-118m"; "I-118m"; "Tb-156m"; "Tb-156m"; "Tb-156m";
     "Tb-156n"; "Tb-156n"; "Tb-156n"].
Proof. vm_compute. reflexivity. Qed.

(** Lines 52-67: the erroneous strings are rejected. *)
Example parse_fixtures_rejected :
  map (fun raw => utils.parse_radionuclide raw test_nuclides "icrp107")
    ["H"; "A1"; "1A"; "H-4"; "H4"; "4H"; "Pb-198m"; "Pbo-198m"]
  = map (fun raw => Raise (InvalidIdentifier raw "icrp107"))
    ["H"; "A1"; "1A"; "H-4"; "H4"; "4H"; "Pb-198m"; "Pbo-198m"].
Proof. vm_compute. reflexivity. Qed.

(** Lines 96-110: conversions from and to seconds. *)
Example time_unit_conv_fixtures :
  map (fun '(units_from, units_to) =>
         utils.time_unit_conv 1 units_from units_to 365.2422)
    [("s", "s"); ("s", "us"); ("s", "ms"); ("s", "m"); ("s", "h"); ("s", "d");
     ("s", "y"); ("us", "s"); ("ms", "s"); ("m", "s"); ("h", "s"); ("d", "s");
     ("y", "s")]
  = map Ok
    [1; 1e6; 1e3; 1 / 60; 1 / (60 * 60); 1 / (60 * 60 * 24);
     1 / (60 * 60 * 24 * 365.2422); 1e-6; 1e-3; 60; 60 * 60; 60 * 60 * 24;
     60 * 60 * 24 * 365.2422]%float.
Proof. vm_compute. reflexivity. Qed.

(** Lines 113-116: unrecognized units. *)
Example time_unit_conv_fixtures_rejected :
  utils.time_unit_conv 1 "ty" "y" 365.2422 = Raise (InvalidUnit "ty") /\
  utils.time_unit_conv 1 "y" "ty" 365.2422 = Raise (InvalidUnit "ty").
Proof. split; vm_compute; reflexivity. Qed.

(** The docstring of [progeny], [branching_fractions] and [decay_modes]
    (radionuclide.py, lines 105-107, 124-126 and 145-147). *)
Example K40_fixtures :
  new_Radionuclide (U := imported_utils) "K-40" sample_data = Ok sample_K40 /\
  progeny sample_K40 = Ok ["Ca-40"; "Ar-40"] /\
  branching_fractions sample_K40 = Ok [0.8914; 0.1086]%float /\
  decay_modes sample_K40 = Ok ["β-"; "β+ & EC"].
Proof. split_and!; vm_compute; reflexivity. Qed.

(** tests/test_decayfunctions.py, line 417: the half-life of H-3 in
    years, with the decay constant the sample gives H-3. *)
Example H3_half_life_fixture :
  new_Radionuclide (U := imported_utils) "H-3" sample_data = Ok sample_H3 /\
  half_life (U := imported_utils) sample_H3 "y" = Ok 12.32%float.
Proof. split; vm_compute; reflexivity. Qed.

(** C1.  The docstring of [half_life] (radionuclide.py, lines 78-80)
    prints [3.8235] for [Rn222.half_life('d')]: this is
    [ln2 / decay_constant], the half-life in seconds, converted to days by
    the converter.  [half_life] instead multiplies [ln2] by what the
    converter makes of one second before it divides, and returns
    [3.8235000000000006]; in seconds it returns the quotient itself. *)
Theorem half_life_docstring_example :
  new_Radionuclide (U := imported_utils) "Rn-222" sample_data = Ok sample_Rn222 /\
  half_life (U := imported_utils) sample_Rn222 "s"
  = Ok (0.6931471805599453 / 2.0982180755947176e-06)%float /\
  utils.time_unit_conv (0.6931471805599453 / 2.0982180755947176e-06) "s" "d"
    365.2422
  = Ok 3.8235%float /\
  half_life (U := imported_utils) sample_Rn222 "d"
  = Ok 3.8235000000000006%float /\
  (3.8235000000000006 =? 3.8235)%float = false.
Proof. split_and!; vm_compute; reflexivity. Qed.

(** With the constants of the ICRP-107 dataset, [ln2] scaled to any
    recognized unit is above zero: the numerator of [half_life] is positive
    in each of them, the case in which the half-life of a stable nuclide is
    an infinity. *)
Lemma scaled_ln2_positive (units : string) :
  units ∈ utils.recognized_units ->
  exists c,
    utils.time_unit_conv 1 "s" units 365.2422 = Ok c /\
    (0 <? c * 0.6931471805599453)%float = true.
Proof.
  unfold utils.recognized_units. intros Hin.
  repeat (apply elem_of_cons in Hin as [->|Hin];
          [eexists; split; vm_compute; reflexivity|]).
  by apply elem_of_nil in Hin.
Qed.

(** ** Instances of the theorems on the sample *)

Lemma sample_data_indexed : indexes_radionuclides sample_data.
Proof.
  intros name idx Hdict. unfold sample_data in Hdict. cbn in Hdict.
  repeat (apply lookup_insert_Some in Hdict as [[<- <-]|[_ Hdict]];
          [split; [lia|reflexivity]|]).
  by rewrite lookup_empty in Hdict.
Qed.

Lemma init_establishes_invariant_witness :
  new_Radionuclide (U := imported_utils) "222Rn" sample_data = Ok sample_Rn222 /\
  indexes_radionuclides sample_data /\
  @returns_listed_nuclide imported_utils /\
  utils.parse_radionuclide "222Rn" (radionuclides sample_data) "icrp107"
  = Ok "Rn-222" /\
  radionuclide sample_Rn222 = Some "Rn-222" /\
  radionuclide_dict sample_data !! "Rn-222" = Some 3%Z /\
  radionuclides sample_data !! 3%nat = Some "Rn-222" /\
  decay_consts sample_data !! 3%nat = Some 2.0982180755947176e-06%float /\
  decay_consts sample_data !! 3%nat = decay_constant sample_Rn222 /\
  prog_bfs_modes sample_data !! 3%nat = Some [("Po-218", (1%float, "α"))] /\
  prog_bfs_modes sample_data !! 3%nat = prog_bf_mode sample_Rn222 /\
  "Rn-222" ∈ radionuclides sample_data /\
  data sample_Rn222 = Some sample_data /\
  utils.parse_radionuclide "H-4" (radionuclides sample_data) "icrp107"
  = Raise (InvalidIdentifier "H-4" "icrp107") /\
  __init__ (U := imported_utils) "H-4" sample_data blank
  = (blank, Raise (InvalidIdentifier "H-4" "icrp107")) /\
  new_Radionuclide (U := imported_utils) "H-4" sample_data
  = Raise (InvalidIdentifier "H-4" "icrp107").
Proof.
  assert (Hnew : new_Radionuclide (U := imported_utils) "222Rn" sample_data
                 = Ok sample_Rn222) by (vm_compute; reflexivity).
  assert (Hthree : radionuclide_dict sample_data !! "Rn-222" = Some 3%Z)
    by (vm_compute; reflexivity).
  assert (Hraise :
    utils.parse_radionuclide "H-4" (radionuclides sample_data) "icrp107"
    = Raise (InvalidIdentifier "H-4" "icrp107")) by (vm_compute; reflexivity).
  destruct (@init_establishes_invariant imported_utils "222Rn" sample_data)
    as [Hok _].
  destruct (@init_establishes_invariant imported_utils "H-4" sample_data)
    as [_ Hfail].
  destruct (Hok sample_Rn222 Hnew)
    as (name & idx & dc & pbm & Hparse & Hname & Hdict & _ & _ & Hdc & _ & _
        & Hpbm & Hdata & Hindexed & _).
  cbn in Hname. injection Hname as <-.
  rewrite Hthree in Hdict. injection Hdict as <-.
  destruct (Hindexed sample_data_indexed)
    as (Hlist & Hconst & Hprog & Hmember).
  rewrite <- Hdc in Hconst. rewrite <- Hpbm in Hprog.
  split_and!;
    [exact Hnew|exact sample_data_indexed|exact utils_returns_listed_nuclide
    |exact Hparse|reflexivity|exact Hthree|exact Hlist|exact Hconst
    |exact Hconst|exact Hprog|exact Hprog|exact Hmember|exact Hdata
    |exact Hraise|exact (proj1 (Hfail _ Hraise))
    |exact (proj2 (Hfail _ Hraise))].
Defined.

Lemma repr_format_witness :
  new_Radionuclide (U := imported_utils) "H-3" sample_data = Ok sample_H3 /\
  __repr__ sample_H3 = Ok "Radionuclide: H-3, Decay dataset: icrp107".
Proof.
  assert (Hnew : new_Radionuclide (U := imported_utils) "H-3" sample_data = Ok sample_H3)
    by (vm_compute; reflexivity).
  split; [exact Hnew|].
  destruct (@repr_format imported_utils "H-3" sample_data sample_H3 Hnew)
    as (name & _ & Hname & _ & Hrepr).
  injection Hname as <-. exact Hrepr.
Defined.

Lemma progeny_accessors_aligned_witness :
  new_Radionuclide (U := imported_utils) "40K" sample_data = Ok sample_K40 /\
  exists name idx pbm ps bfs modes,
    radionuclide sample_K40 = Some name /\
    dict_get (radionuclide_dict sample_data) name = Ok idx /\
    py_index (prog_bfs_modes sample_data) idx = Ok pbm /\
    progeny sample_K40 = Ok ps /\
    branching_fractions sample_K40 = Ok bfs /\
    decay_modes sample_K40 = Ok modes /\
    length ps = length pbm /\
    length bfs = length pbm /\
    length modes = length pbm /\
    (forall i p bf mode,
       pbm !! i = Some (p, (bf, mode)) <->
       ps !! i = Some p /\ bfs !! i = Some bf /\ modes !! i = Some mode) /\
    (NoDup (keys pbm) ->
     forall i p bf mode,
       ps !! i = Some p -> bfs !! i = Some bf -> modes !! i = Some mode ->
       pydict_get pbm p = Ok (bf, mode)).
Proof.
  assert (Hnew : new_Radionuclide (U := imported_utils) "40K" sample_data = Ok sample_K40)
    by (vm_compute; reflexivity).
  split; [exact Hnew|].
  exact (@progeny_accessors_aligned imported_utils "40K" sample_data sample_K40 Hnew).
Defined.

Lemma half_life_value_witness :
  new_Radionuclide (U := imported_utils) "222Rn" sample_data = Ok sample_Rn222 /\
  decay_constant sample_Rn222 = Some 2.0982180755947176e-06%float /\
  half_life (U := imported_utils) sample_Rn222 "s"
  = Ok (0.6931471805599453 / 2.0982180755947176e-06)%float /\
  ("d" <> "s") /\
  time_unit_conv (Utils := imported_utils) 1 "s" "d" 365.2422 = Ok (1 * 1 / 86400)%float /\
  half_life (U := imported_utils) sample_Rn222 "d"
  = Ok (1 * 1 / 86400 * 0.6931471805599453 / 2.0982180755947176e-06)%float.
Proof.
  assert (Hnew : new_Radionuclide (U := imported_utils) "222Rn" sample_data
                 = Ok sample_Rn222) by (vm_compute; reflexivity).
  assert (Hconv : time_unit_conv (Utils := imported_utils) 1 "s" "d" 365.2422
                  = Ok (1 * 1 / 86400)%float) by (vm_compute; reflexivity).
  assert (Hunits : "d" <> "s") by discriminate.
  destruct (@half_life_value imported_utils "222Rn" sample_data sample_Rn222 _
              Hnew eq_refl) as [Hs Hother].
  split_and!; [exact Hnew|reflexivity|exact Hs|exact Hunits|exact Hconv|].
  exact (Hother "d" _ Hunits Hconv).
Defined.

Lemma half_life_of_stable_divides_by_zero_witness :
  new_Radionuclide (U := imported_utils) "He-3" sample_data = Ok sample_He3 /\
  decay_constant sample_He3 = Some 0%float /\
  (0 =? 0)%float = true /\
  half_life (U := imported_utils) sample_He3 "s"
  = Ok (ln2 sample_data / 0)%float /\
  (0 <? ln2 sample_data)%float = true /\
  (ln2 sample_data / 0)%float = infinity /\
  ("y" <> "s") /\
  time_unit_conv (Utils := imported_utils) 1 "s" "y" 365.2422
  = Ok (1 * 1 / (365.2422 * 86400))%float /\
  half_life (U := imported_utils) sample_He3 "y"
  = Ok (1 * 1 / (365.2422 * 86400) * ln2 sample_data / 0)%float /\
  (1 * 1 / (365.2422 * 86400) * ln2 sample_data / 0)%float = infinity.
Proof.
  assert (Hnew : new_Radionuclide (U := imported_utils) "He-3" sample_data
                 = Ok sample_He3) by (vm_compute; reflexivity).
  assert (Hconv : time_unit_conv (Utils := imported_utils) 1 "s" "y" 365.2422
                  = Ok (1 * 1 / (365.2422 * 86400))%float)
    by (vm_compute; reflexivity).
  assert (Hunits : "y" <> "s") by discriminate.
  destruct (@half_life_of_stable_divides_by_zero imported_utils "He-3"
              sample_data sample_He3 0%float Hnew eq_refl eq_refl)
    as [_ Hquotient].
  destruct (Hquotient "s" (ln2 sample_data) (or_introl (conj eq_refl eq_refl)))
    as (Hs & _ & Hs_pos & _).
  destruct (Hquotient "y" (1 * 1 / (365.2422 * 86400) * ln2 sample_data)%float
              (or_intror (ex_intro _ _ (conj Hunits (conj Hconv eq_refl)))))
    as (Hy & _ & Hy_pos & _).
  split_and!;
    [exact Hnew|reflexivity|reflexivity|exact Hs|reflexivity
    |exact (proj1 (Hs_pos eq_refl) eq_refl)|exact Hunits|exact Hconv|exact Hy
    |exact (proj1 (Hy_pos eq_refl) eq_refl)].
Defined.

(** C2, counterexample.  The half-life of a stable nuclide is neither an
    exception nor plus infinity in general: with the zero decay constant
    stored as [-0.0] it is minus infinity, and over a dataset in which one
    second is [0.0] years it is NaN in years. *)
Lemma half_life_of_stable_not_guarded :
  (exists r,
     new_Radionuclide (U := imported_utils) "He-3" sample_negative_zero = Ok r /\
     decay_constant r = Some neg_zero /\
     (neg_zero =? 0)%float = true /\
     half_life (U := imported_utils) r "s" = Ok neg_infinity /\
     (neg_infinity <? 0)%float = true /\
     neg_infinity <> infinity) /\
  (exists r,
     new_Radionuclide (U := imported_utils) "He-3" sample_endless_year = Ok r /\
     decay_constant r = Some 0%float /\
     half_life (U := imported_utils) r "y" = Ok nan /\
     is_nan nan = true /\
     nan <> infinity).
Proof.
  split; eexists; (split_and!; [vm_compute; reflexivity ..|]);
    intros Heq; apply (f_equal (fun x => (x =? infinity)%float)) in Heq;
    vm_compute in Heq; discriminate.
Qed.

Lemma time_unit_conv_invalid_unit_witness :
  "y" ∈ utils.recognized_units /\ "s" ∈ utils.recognized_units /\
  ("ty" ∉ utils.recognized_units) /\
  utils.time_unit_conv 1 "ty" "y" 365.2422 = Raise (InvalidUnit "ty") /\
  utils.time_unit_conv 1 "y" "ty" 365.2422 = Raise (InvalidUnit "ty") /\
  exists from_seconds to_seconds,
    pydict_get (utils.seconds_per_unit 365.2422) "y" = Ok from_seconds /\
    pydict_get (utils.seconds_per_unit 365.2422) "s" = Ok to_seconds /\
    utils.time_unit_conv 1 "y" "s" 365.2422
    = Ok (1 * from_seconds / to_seconds)%float.
Proof.
  assert (Hy : "y" ∈ utils.recognized_units) by (apply (bool_decide_unpack _); vm_compute; exact I).
  assert (Hs : "s" ∈ utils.recognized_units) by (apply (bool_decide_unpack _); vm_compute; exact I).
  assert (Hty : "ty" ∉ utils.recognized_units) by (apply (bool_decide_unpack _); vm_compute; exact I).
  destruct (time_unit_conv_invalid_unit 1 "ty" "y" 365.2422)
    as (_ & Hfrom & _ & _).
  destruct (time_unit_conv_invalid_unit 1 "y" "ty" 365.2422)
    as (_ & _ & Hto & _).
  destruct (time_unit_conv_invalid_unit 1 "y" "s" 365.2422)
    as (_ & _ & _ & Hboth).
  split_and!; [exact Hy|exact Hs|exact Hty|exact (Hfrom Hty)
              |exact (Hto Hy Hty)|exact (Hboth Hy Hs)].
Defined.

Lemma canonicalization_idempotent_witness :
  utils.is_symbol "H" = true /\ utils.is_mass "3" = true /\
  utils.is_suffix "" = true /\
  "H-3" ∈ radionuclides sample_data /\
  utils.parse_radionuclide "H-3" (radionuclides sample_data) "icrp107"
  = Ok "H-3" /\
  utils.parse_radionuclide "H3" (radionuclides sample_data) "icrp107"
  = Ok "H-3" /\
  utils.parse_radionuclide "3H" (radionuclides sample_data) "icrp107"
  = Ok "H-3".
Proof.
  assert (Hin : "H-3" ∈ radionuclides sample_data)
    by (apply (bool_decide_unpack _); vm_compute; exact I).
  destruct (canonicalization_idempotent (radionuclides sample_data) "icrp107")
    as [_ Hspellings].
  destruct (Hspellings "H" "3" "" eq_refl eq_refl eq_refl) as [Hlisted _].
  split_and!; try reflexivity; try exact Hin; apply (Hlisted Hin).
Defined.

(** * Further properties of [class Radionuclide] *)

(** ** Indexing *)

Lemma py_index_in_range {A} (l : list A) (i : Z) :
  in_range l i -> exists x, py_index l i = Ok x.
Proof.
  unfold in_range, py_index. intros Hrange.
  set (n := Z.of_nat (length l)) in *.
  set (j := if (i <? 0)%Z then (i + n)%Z else i).
  assert (Hj : (0 <= j < n)%Z) by (subst j; destruct (Z.ltb_spec i 0); lia).
  rewrite (proj2 (andb_true_iff _ _)) by (split; [apply Z.leb_le|apply Z.ltb_lt]; lia).
  destruct (lookup_lt_is_Some_2 l (Z.to_nat j)) as [x Hx]; [subst n; lia|].
  rewrite Hx. by exists x.
Qed.

Lemma py_index_out_of_range {A} (l : list A) (i : Z) :
  ~ in_range l i -> py_index l i = Raise IndexError.
Proof.
  unfold in_range, py_index. intros Hrange.
  set (n := Z.of_nat (length l)) in *.
  set (j := if (i <? 0)%Z then (i + n)%Z else i).
  assert (Hj : ~ (0 <= j < n)%Z) by (subst j; destruct (Z.ltb_spec i 0); lia).
  destruct (Z.leb_spec 0 j), (Z.ltb_spec j n); cbn; try done. lia.
Qed.

(** ** The steps of [__init__] *)

Section ConstructorSteps.
Context {U : Utils}.

(** [__init__] after a successful parse, on any instance: the store each
    later failure leaves, and the store of a return. *)
Lemma init_after_parse (raw : string) (d : DecayData) (self : Radionuclide)
    (name : string) :
  parse_radionuclide raw (radionuclides d) (dataset d) = Ok name ->
  __init__ raw d self =
  let named :=
    {| radionuclide := Some name; decay_constant := decay_constant self;
       prog_bf_mode := prog_bf_mode self; data := data self |} in
  match dict_get (radionuclide_dict d) name with
  | Raise e => (named, Raise e)
  | Ok idx =>
      match py_index (decay_consts d) idx with
      | Raise e => (named, Raise e)
      | Ok dc =>
          match py_index (prog_bfs_modes d) idx with
          | Raise e =>
              ({| radionuclide := Some name; decay_constant := Some dc;
                  prog_bf_mode := prog_bf_mode self; data := data self |},
               Raise e)
          | Ok pbm =>
              ({| radionuclide := Some name; decay_constant := Some dc;
                  prog_bf_mode := Some pbm; data := Some d |}, Ok tt)
          end
      end
  end.
Proof.
  intros Hparse. unfold __init__, mbind, lift, read. rewrite Hparse. cbn.
  destruct (dict_get (radionuclide_dict d) name) as [idx|e]; [|done].
  destruct (py_index (decay_consts d) idx) as [dc|e]; [|done].
  cbn. by destruct (py_index (prog_bfs_modes d) idx) as [pbm|e].
Qed.

(** X1.  Once the argument has parsed to [name], the constructor raises
    [KeyError(name)] when the dataset's dictionary has no index for it,
    [IndexError] when the index is outside [decay_consts] or outside
    [prog_bfs_modes], and returns an instance in every other case. *)
Theorem constructor_failure_modes (raw : string) (d : DecayData)
    (name : string) :
  parse_radionuclide raw (radionuclides d) (dataset d) = Ok name ->
  (radionuclide_dict d !! name = None ->
   new_Radionuclide raw d = Raise (KeyError name)) /\
  (forall idx, radionuclide_dict d !! name = Some idx ->
     (~ in_range (decay_consts d) idx ->
      new_Radionuclide raw d = Raise IndexError) /\
     (in_range (decay_consts d) idx -> ~ in_range (prog_bfs_modes d) idx ->
      new_Radionuclide raw d = Raise IndexError) /\
     (in_range (decay_consts d) idx -> in_range (prog_bfs_modes d) idx ->
      exists r, new_Radionuclide raw d = Ok r)).
Proof.
  intros Hparse. unfold new_Radionuclide.
  rewrite (init_after_parse raw d blank name Hparse). cbn zeta.
  unfold dict_get. split.
  - by intros ->.
  - intros idx ->. split_and!.
    + intros Hout. by rewrite (py_index_out_of_range _ idx Hout).
    + intros Hin Hout. destruct (py_index_in_range _ idx Hin) as [dc ->].
      by rewrite (py_index_out_of_range _ idx Hout).
    + intros Hin Hin'. destruct (py_index_in_range _ idx Hin) as [dc ->].
      destruct (py_index_in_range _ idx Hin') as [pbm ->]. eauto.
Qed.

(** X2.  Over a consistent dataset, and with a parser that returns listed
    nuclides only, the constructor returns an instance for every argument
    the parser accepts, and whatever it raises is what the parser raised:
    no [KeyError] and no [IndexError] reaches the caller. *)
Theorem constructor_on_consistent_dataset (raw : string) (d : DecayData) :
  returns_listed_nuclide ->
  consistent d ->
  (forall name,
     parse_radionuclide raw (radionuclides d) (dataset d) = Ok name ->
     exists r, new_Radionuclide raw d = Ok r /\ radionuclide r = Some name) /\
  (forall e,
     new_Radionuclide raw d = Raise e ->
     parse_radionuclide raw (radionuclides d) (dataset d) = Raise e).
Proof.
  intros Hlisted Hconsistent.
  assert (Hok : forall name,
    parse_radionuclide raw (radionuclides d) (dataset d) = Ok name ->
    exists r, new_Radionuclide raw d = Ok r /\ radionuclide r = Some name).
  { intros name Hparse.
    destruct (Hconsistent name (Hlisted _ _ _ _ Hparse))
      as (idx & Hidx & Hdc & Hpbm).
    unfold new_Radionuclide.
    rewrite (init_after_parse raw d blank name Hparse). cbn zeta.
    unfold dict_get. rewrite Hidx.
    destruct (py_index_in_range _ idx Hdc) as [dc ->].
    destruct (py_index_in_range _ idx Hpbm) as [pbm ->]. eauto. }
  split; [exact Hok|].
  intros e Hraise.
  destruct (parse_radionuclide raw (radionuclides d) (dataset d))
    as [name|e'] eqn:Hparse.
  - destruct (Hok name eq_refl) as (r & Hnew & _). congruence.
  - unfold new_Radionuclide in Hraise.
    rewrite (init_parse_raises raw d blank e' Hparse) in Hraise. congruence.
Qed.

(** X3.  [__init__] assigns all four attributes: run on any instance,
    with arguments for which the constructor returns [r], it returns and
    leaves exactly [r], whatever the instance held before. *)
Theorem init_rebinds_completely (raw : string) (d : DecayData)
    (r self : Radionuclide) :
  new_Radionuclide raw d = Ok r ->
  __init__ raw d self = (r, Ok tt).
Proof.
  intros Hnew.
  destruct (new_Radionuclide_inv raw d r Hnew)
    as (name & idx & dc & pbm & Hparse & Hidx & Hdc & Hpbm & ->).
  rewrite (init_after_parse raw d self name Hparse). cbn zeta.
  by rewrite Hidx, Hdc, Hpbm.
Qed.

(** X4.  [__init__] is not atomic: the store a raising call leaves is
    determined by the step that raised.  If the parser raised, nothing
    changed.  If the dictionary had no index for the parsed name
    ([KeyError]) or [decay_consts] did not accept the index
    ([IndexError]), only [radionuclide] changed: it holds the new name.  If
    [prog_bfs_modes] did not accept the index, [radionuclide] holds the new
    name and [decay_constant] the new constant, the item of [decay_consts]
    at the index.  [prog_bf_mode] and [data] are as before in every case. *)
Theorem init_failure_state (raw : string) (d : DecayData)
    (self self' : Radionuclide) (e : exception) :
  __init__ raw d self = (self', Raise e) ->
  (parse_radionuclide raw (radionuclides d) (dataset d) = Raise e /\
   self' = self) \/
  (exists name,
     parse_radionuclide raw (radionuclides d) (dataset d) = Ok name /\
     ((radionuclide_dict d !! name = None /\ e = KeyError name) \/
      (exists idx, radionuclide_dict d !! name = Some idx /\
         ~ in_range (decay_consts d) idx /\ e = IndexError)) /\
     self' = {| radionuclide := Some name;
                decay_constant := decay_constant self;
                prog_bf_mode := prog_bf_mode self;
                data := data self |}) \/
  (exists name idx dc,
     parse_radionuclide raw (radionuclides d) (dataset d) = Ok name /\
     radionuclide_dict d !! name = Some idx /\
     in_range (decay_consts d) idx /\
     decay_consts d !! position (length (decay_consts d)) idx = Some dc /\
     ~ in_range (prog_bfs_modes d) idx /\
     e = IndexError /\
     self' = {| radionuclide := Some name;
                decay_constant := Some dc;
                prog_bf_mode := prog_bf_mode self;
                data := data self |}).
Proof.
  intros Hinit.
  destruct (parse_radionuclide raw (radionuclides d) (dataset d))
    as [name|e'] eqn:Hparse.
  - right.
    rewrite (init_after_parse raw d self name Hparse) in Hinit.
    cbn zeta in Hinit. unfold dict_get in Hinit.
    destruct (radionuclide_dict d !! name) as [idx|] eqn:Hdict.
    2:{ injection Hinit as <- <-. left. exists name. auto. }
    destruct (decide (in_range (decay_consts d) idx)) as [Hin|Hout].
    2:{ rewrite (py_index_out_of_range _ idx Hout) in Hinit.
        injection Hinit as <- <-. left. exists name. split_and!; eauto. }
    destruct (py_index_in_range _ idx Hin) as [dc Hdc].
    rewrite Hdc in Hinit. apply py_index_position in Hdc as [_ Hdc].
    destruct (decide (in_range (prog_bfs_modes d) idx)) as [Hin'|Hout'].
    { destruct (py_index_in_range _ idx Hin') as [pbm Hpbm].
      rewrite Hpbm in Hinit. discriminate. }
    rewrite (py_index_out_of_range _ idx Hout') in Hinit.
    injection Hinit as <- <-. right. by exists name, idx, dc.
  - left. rewrite (init_parse_raises raw d self e' Hparse) in Hinit.
    injection Hinit as <- <-. auto.
Qed.

End ConstructorSteps.

(** ** Signs in binary64 arithmetic *)

Section Binary64Signs.
Local Open Scope Z_scope.

Lemma shr_1_nonneg (mrs : shr_record) :
  0 <= shr_m mrs -> 0 <= shr_m (shr_1 mrs).
Proof.
  destruct mrs as [m r s]. cbn.
  destruct m as [|[p|p|]|[p|p|]]; cbn; lia.
Qed.

Lemma iter_shr_1_nonneg (n : positive) (mrs : shr_record) :
  0 <= shr_m mrs -> 0 <= shr_m (SpecFloat.iter_pos shr_1 n mrs).
Proof.
  revert mrs. induction n as [n IH|n IH|]; intros mrs Hm; cbn.
  - apply IH, IH. by apply shr_1_nonneg.
  - by apply IH, IH.
  - by apply shr_1_nonneg.
Qed.

Lemma shr_fexp_nonneg (m e : Z) (l : location) :
  0 <= m -> 0 <= shr_m (fst (shr_fexp prec emax m e l)).
Proof.
  intros Hm. unfold shr_fexp, shr.
  assert (Hrecord : 0 <= shr_m (shr_record_of_loc m l))
    by (destruct l as [|[]]; exact Hm).
  destruct (fexp prec emax (Zdigits2 m + e) - e) as [|n|n]; cbn; try done.
  by apply iter_shr_1_nonneg.
Qed.

Lemma round_nearest_even_nonneg (m : Z) (l : location) :
  0 <= m -> 0 <= round_nearest_even m l.
Proof.
  intros Hm. destruct l as [|[]]; cbn; try lia.
  destruct (Z.even m); lia.
Qed.

(** Rounding a non-negative mantissa with the plus sign never gives NaN or
    a negative value. *)
Lemma binary_round_aux_nonneg (m e : Z) (l : location) :
  0 <= m -> sf_nonneg (binary_round_aux prec emax false m e l).
Proof.
  intros Hm. unfold binary_round_aux.
  pose proof (shr_fexp_nonneg m e l Hm) as Hfirst.
  destruct (shr_fexp prec emax m e l) as [mrs' e']. cbn in Hfirst.
  pose proof (shr_fexp_nonneg _ e' loc_Exact
                (round_nearest_even_nonneg _ (loc_of_shr_record mrs') Hfirst))
    as Hsecond.
  destruct (shr_fexp prec emax _ e' loc_Exact) as [mrs'' e'']. cbn in Hsecond.
  destruct (shr_m mrs'') as [|p|p]; cbn; [done| |lia].
  by destruct (e'' <=? emax - prec).
Qed.

Lemma SF64div_nonneg (mx : positive) (ex : Z) (my : positive) (ey : Z) :
  sf_nonneg (SF64div (S754_finite false mx ex) (S754_finite false my ey)).
Proof.
  unfold SF64div, SFdiv. cbn [xorb].
  destruct (SFdiv_core_binary prec emax (Z.pos mx) ex (Z.pos my) ey)
    as [[mz ez] lz] eqn:Hcore.
  apply binary_round_aux_nonneg.
  unfold SFdiv_core_binary in Hcore.
  set (m' := match _ with Z.pos _ => _ | 0 => _ | Z.neg _ => _ end : Z) in Hcore.
  assert (Hm' : 0 <= m').
  { subst m'. destruct (_ - _ - _) as [|s|s]; try lia.
    apply Z.shiftl_nonneg. lia. }
  pose proof (Z.div_pos m' (Z.pos my) Hm' ltac:(lia)) as Hq.
  unfold Z.div in Hq.
  destruct (Z.div_eucl m' (Z.pos my)) as [q r]. cbn in Hq.
  by injection Hcore as <- _ _.
Qed.

Lemma SF64mul_nonneg (mx : positive) (ex : Z) (my : positive) (ey : Z) :
  sf_nonneg (SF64mul (S754_finite false mx ex) (S754_finite false my ey)).
Proof.
  unfold SF64mul, SFmul. cbn [xorb]. apply binary_round_aux_nonneg. lia.
Qed.

End Binary64Signs.

(** A float above zero and below infinity is a positive finite number. *)
Lemma float_pos_finite (x : float) :
  (0 <? x)%float = true -> (x <? infinity)%float = true ->
  exists m e, Prim2SF x = S754_finite false m e.
Proof.
  intros Hpos Hfinite.
  destruct (float_pos_cases x Hpos) as [Hinf|Hfin]; [|done].
  rewrite FloatAxioms.ltb_spec, Hinf in Hfinite. discriminate.
Qed.

Lemma float_nonneg_leb (x : float) :
  sf_nonneg (Prim2SF x) -> (0 <=? x)%float = true.
Proof.
  rewrite FloatAxioms.leb_spec. change (Prim2SF 0) with (S754_zero false).
  by destruct (Prim2SF x) as [[]|[]| |[] m e].
Qed.

(** The product of two positive finite floats is [+0.0] (underflow),
    positive or plus infinity (overflow). *)
Lemma float_mul_pos_nonneg (x y : float) :
  (0 <? x)%float = true -> (x <? infinity)%float = true ->
  (0 <? y)%float = true -> (y <? infinity)%float = true ->
  sf_nonneg (Prim2SF (x * y)).
Proof.
  intros Hx Hx' Hy Hy'.
  destruct (float_pos_finite x Hx Hx') as (mx & ex & Hxf).
  destruct (float_pos_finite y Hy Hy') as (my & ey & Hyf).
  rewrite mul_spec, Hxf, Hyf. apply SF64mul_nonneg.
Qed.

(** Dividing such a value by a positive finite float gives such a value. *)
Lemma float_div_nonneg (x y : float) :
  sf_nonneg (Prim2SF x) ->
  (0 <? y)%float = true -> (y <? infinity)%float = true ->
  sf_nonneg (Prim2SF (x / y)).
Proof.
  intros Hx Hy Hy'.
  destruct (float_pos_finite y Hy Hy') as (my & ey & Hyf).
  rewrite div_spec, Hyf.
  destruct (Prim2SF x) as [[]|[]| |[] mx ex]; try done.
  apply SF64div_nonneg.
Qed.

(** ** [half_life] and [__repr__] *)

Lemma append_inj_l (s x y : string) : s ++ x = s ++ y -> x = y.
Proof.
  induction s as [|c s IH]; [done|].
  rewrite !append_cons. intros [= Heq]. by apply IH.
Qed.

(** A comma-free string is delimited by the separator that follows it. *)
Lemma comma_delimited (a b x y : string) :
  comma_free a = true -> comma_free b = true ->
  a ++ String "," x = b ++ String "," y ->
  a = b /\ x = y.
Proof.
  revert b. induction a as [|c a IH]; intros [|c' b] Ha Hb;
    rewrite ?append_nil_l, ?append_cons; intros Heq.
  - by injection Heq as ->.
  - injection Heq as <- _. cbn in Hb. discriminate.
  - injection Heq as -> _. cbn in Ha. discriminate.
  - injection Heq as -> Heq. cbn in Ha, Hb.
    apply andb_prop in Ha as [_ Ha]. apply andb_prop in Hb as [_ Hb].
    destruct (IH b Ha Hb Heq) as [-> ->]. done.
Qed.

Section MethodProperties.
Context {U : Utils}.

(** X5.  On a constructed instance [half_life] raises exactly when the
    unit is not "s" and the converter raises on it, and it raises the
    converter's exception; in seconds it never raises. *)
Theorem half_life_raises_iff (raw : string) (d : DecayData) (r : Radionuclide)
    (units : string) (e : exception) :
  new_Radionuclide raw d = Ok r ->
  half_life r units = Raise e <->
  units <> "s" /\ time_unit_conv 1%float "s" units (year_conv d) = Raise e.
Proof.
  intros Hnew.
  destruct (new_Radionuclide_inv raw d r Hnew)
    as (name & idx & dc & pbm & _ & _ & _ & _ & ->).
  unfold half_life. destruct (String.eqb_spec units "s") as [->|Hunits]; cbn.
  - split; [discriminate|]. by intros [? _].
  - destruct (time_unit_conv 1%float "s" units (year_conv d)) as [c|e']; cbn.
    + split; [discriminate|]. by intros [_ ?].
    + split; [by intros [= ->]|]. by intros [_ [= ->]].
Qed.

(** X6.  On a constructed instance with a positive finite decay constant,
    over a dataset whose [ln2] is positive and finite, the half-life is
    never NaN and never negative: it compares at or above zero, in seconds
    and in any unit for which the converter gives a positive finite
    factor. *)
Theorem half_life_nonnegative (raw : string) (d : DecayData) (r : Radionuclide)
    (dc : float) :
  new_Radionuclide raw d = Ok r ->
  decay_constant r = Some dc ->
  (0 <? dc)%float = true -> (dc <? infinity)%float = true ->
  (0 <? ln2 d)%float = true -> (ln2 d <? infinity)%float = true ->
  (exists h, half_life r "s" = Ok h /\ (0 <=? h)%float = true) /\
  (forall units c,
     units <> "s" ->
     time_unit_conv 1%float "s" units (year_conv d) = Ok c ->
     (0 <? c)%float = true -> (c <? infinity)%float = true ->
     exists h, half_life r units = Ok h /\ (0 <=? h)%float = true).
Proof.
  intros Hnew Hdc Hpos Hfin Hln2 Hln2'. split.
  - exists (ln2 d / dc)%float. split; [by eapply half_life_seconds|].
    apply float_nonneg_leb, float_div_nonneg; try done.
    destruct (float_pos_finite _ Hln2 Hln2') as (m & ex & ->). done.
  - intros units c Hunits Hconv Hc Hc'.
    exists (c * ln2 d / dc)%float. split; [by eapply half_life_converted|].
    apply float_nonneg_leb, float_div_nonneg; try done.
    by apply float_mul_pos_nonneg.
Qed.

(** X7.  The shortcut for seconds agrees with the general path: in a unit
    for which the converter turns one second into [1.0], [half_life]
    returns what it returns for "s". *)
Theorem half_life_unit_factor (raw : string) (d : DecayData) (r : Radionuclide)
    (units : string) :
  new_Radionuclide raw d = Ok r ->
  time_unit_conv 1%float "s" units (year_conv d) = Ok 1%float ->
  half_life r units = half_life r "s".
Proof.
  intros Hnew Hconv.
  destruct (String.eqb_spec units "s") as [->|Hunits]; [done|].
  destruct (new_Radionuclide_inv raw d r Hnew)
    as (name & idx & dc & pbm & _ & _ & _ & _ & Hr).
  assert (Hdc : decay_constant r = Some dc) by by rewrite Hr.
  rewrite (half_life_converted raw d r dc units 1%float Hnew Hdc Hunits Hconv).
  rewrite (half_life_seconds raw d r dc Hnew Hdc).
  by rewrite float_mul_1_l.
Qed.

(** X8.  The representation tells instances apart: two constructed
    instances whose identifiers hold no comma and whose representations are
    equal have the same identifier and the same dataset name. *)
Theorem repr_injective (raw1 raw2 : string) (d1 d2 : DecayData)
    (r1 r2 : Radionuclide) (name1 name2 : string) :
  new_Radionuclide raw1 d1 = Ok r1 ->
  new_Radionuclide raw2 d2 = Ok r2 ->
  radionuclide r1 = Some name1 ->
  radionuclide r2 = Some name2 ->
  comma_free name1 = true ->
  comma_free name2 = true ->
  __repr__ r1 = __repr__ r2 ->
  name1 = name2 /\ dataset d1 = dataset d2.
Proof.
  intros Hnew1 Hnew2 Hname1 Hname2 Hfree1 Hfree2.
  destruct (new_Radionuclide_inv raw1 d1 r1 Hnew1)
    as (n1 & idx1 & dc1 & pbm1 & _ & _ & _ & _ & ->).
  destruct (new_Radionuclide_inv raw2 d2 r2 Hnew2)
    as (n2 & idx2 & dc2 & pbm2 & _ & _ & _ & _ & ->).
  cbn in Hname1, Hname2. injection Hname1 as ->. injection Hname2 as ->.
  unfold __repr__. cbn. intros Heq. injection Heq as Heq.
  rewrite !append_nil_l in Heq.
  change (", Decay dataset: " ++ dataset d1)
    with (String "," (" Decay dataset: " ++ dataset d1)) in Heq.
  change (", Decay dataset: " ++ dataset d2)
    with (String "," (" Decay dataset: " ++ dataset d2)) in Heq.
  destruct (comma_delimited _ _ _ _ Hfree1 Hfree2 Heq) as [-> Hrest].
  split; [done|]. by apply (append_inj_l " Decay dataset: ").
Qed.

End MethodProperties.

(** ** Instances of the further properties on the samples *)

Lemma sample_data_consistent : consistent sample_data.
Proof.
  intros name Hin. cbn in Hin.
  repeat (apply elem_of_cons in Hin as [->|Hin]);
    [exists 0%Z|exists 1%Z|exists 2%Z|exists 3%Z|by apply elem_of_nil in Hin];
    (split; [vm_compute; reflexivity|]); unfold in_range; cbn; lia.
Qed.

Lemma constructor_failure_modes_witness :
  parse_radionuclide (Utils := imported_utils) "He-3"
    (radionuclides sample_gaps) (dataset sample_gaps) = Ok "He-3" /\
  radionuclide_dict sample_gaps !! "He-3" = None /\
  new_Radionuclide (U := imported_utils) "He-3" sample_gaps
  = Raise (KeyError "He-3") /\
  parse_radionuclide (Utils := imported_utils) "222Rn"
    (radionuclides sample_gaps) (dataset sample_gaps) = Ok "Rn-222" /\
  radionuclide_dict sample_gaps !! "Rn-222" = Some 3%Z /\
  in_range (decay_consts sample_gaps) 3 /\
  ~ in_range (prog_bfs_modes sample_gaps) 3 /\
  new_Radionuclide (U := imported_utils) "222Rn" sample_gaps = Raise IndexError.
Proof.
  assert (Hparse : parse_radionuclide (Utils := imported_utils) "He-3"
            (radionuclides sample_gaps) (dataset sample_gaps) = Ok "He-3")
    by (vm_compute; reflexivity).
  assert (Hparse' : parse_radionuclide (Utils := imported_utils) "222Rn"
            (radionuclides sample_gaps) (dataset sample_gaps) = Ok "Rn-222")
    by (vm_compute; reflexivity).
  assert (Hnone : radionuclide_dict sample_gaps !! "He-3" = None)
    by (vm_compute; reflexivity).
  assert (Hsome : radionuclide_dict sample_gaps !! "Rn-222" = Some 3%Z)
    by (vm_compute; reflexivity).
  assert (Hin : in_range (decay_consts sample_gaps) 3)
    by (unfold in_range; cbn; lia).
  assert (Hout : ~ in_range (prog_bfs_modes sample_gaps) 3)
    by (unfold in_range; cbn; lia).
  destruct (@constructor_failure_modes imported_utils "He-3" sample_gaps
              "He-3" Hparse) as [Hkey _].
  destruct (@constructor_failure_modes imported_utils "222Rn" sample_gaps
              "Rn-222" Hparse') as [_ Hindex].
  destruct (Hindex 3%Z Hsome) as (_ & Hprog & _).
  split_and!; [exact Hparse|exact Hnone|exact (Hkey Hnone)|exact Hparse'
              |exact Hsome|exact Hin|exact Hout|exact (Hprog Hin Hout)].
Defined.

Lemma constructor_on_consistent_dataset_witness :
  @returns_listed_nuclide imported_utils /\
  consistent sample_data /\
  parse_radionuclide (Utils := imported_utils) "3H"
    (radionuclides sample_data) (dataset sample_data) = Ok "H-3" /\
  (exists r, new_Radionuclide (U := imported_utils) "3H" sample_data = Ok r /\
             radionuclide r = Some "H-3") /\
  new_Radionuclide (U := imported_utils) "H-4" sample_data
  = Raise (InvalidIdentifier "H-4" "icrp107") /\
  parse_radionuclide (Utils := imported_utils) "H-4"
    (radionuclides sample_data) (dataset sample_data)
  = Raise (InvalidIdentifier "H-4" "icrp107").
Proof.
  assert (Hparse : parse_radionuclide (Utils := imported_utils) "3H"
            (radionuclides sample_data) (dataset sample_data) = Ok "H-3")
    by (vm_compute; reflexivity).
  assert (Hraise : new_Radionuclide (U := imported_utils) "H-4" sample_data
                   = Raise (InvalidIdentifier "H-4" "icrp107"))
    by (vm_compute; reflexivity).
  destruct (@constructor_on_consistent_dataset imported_utils "3H" sample_data
              utils_returns_listed_nuclide sample_data_consistent)
    as [Hok _].
  destruct (@constructor_on_consistent_dataset imported_utils "H-4" sample_data
              utils_returns_listed_nuclide sample_data_consistent)
    as [_ Hfail].
  split_and!; [exact utils_returns_listed_nuclide|exact sample_data_consistent
              |exact Hparse|exact (Hok _ Hparse)|exact Hraise
              |exact (Hfail _ Hraise)].
Defined.

Lemma init_rebinds_completely_witness :
  new_Radionuclide (U := imported_utils) "222Rn" sample_data = Ok sample_Rn222 /\
  __init__ (U := imported_utils) "222Rn" sample_data sample_H3
  = (sample_Rn222, Ok tt).
Proof.
  assert (Hnew : new_Radionuclide (U := imported_utils) "222Rn" sample_data
                 = Ok sample_Rn222) by (vm_compute; reflexivity).
  split; [exact Hnew|].
  exact (@init_rebinds_completely imported_utils "222Rn" sample_data
           sample_Rn222 sample_H3 Hnew).
Defined.

Lemma init_failure_state_witness :
  __init__ (U := imported_utils) "222Rn" sample_gaps sample_H3
  = (sample_half_rebound, Raise IndexError) /\
  decay_consts sample_gaps !! 3%nat = Some 2.0982180755947176e-06%float /\
  sample_half_rebound
  = {| radionuclide := Some "Rn-222";
       decay_constant := decay_consts sample_gaps !! 3%nat;
       prog_bf_mode := prog_bf_mode sample_H3;
       data := data sample_H3 |} /\
  __init__ (U := imported_utils) "He-3" sample_gaps sample_H3
  = ({| radionuclide := Some "He-3";
        decay_constant := decay_constant sample_H3;
        prog_bf_mode := prog_bf_mode sample_H3;
        data := data sample_H3 |}, Raise (KeyError "He-3")).
Proof.
  assert (Hinit : __init__ (U := imported_utils) "222Rn" sample_gaps sample_H3
                  = (sample_half_rebound, Raise IndexError))
    by (vm_compute; reflexivity).
  assert (Hinit' : __init__ (U := imported_utils) "He-3" sample_gaps sample_H3
                   = ({| radionuclide := Some "He-3";
                         decay_constant := decay_constant sample_H3;
                         prog_bf_mode := prog_bf_mode sample_H3;
                         data := data sample_H3 |}, Raise (KeyError "He-3")))
    by (vm_compute; reflexivity).
  assert (Hparse : parse_radionuclide (Utils := imported_utils) "222Rn"
            (radionuclides sample_gaps) (dataset sample_gaps) = Ok "Rn-222")
    by (vm_compute; reflexivity).
  assert (Hthree : radionuclide_dict sample_gaps !! "Rn-222" = Some 3%Z)
    by (vm_compute; reflexivity).
  split_and!; [exact Hinit|reflexivity| |exact Hinit'].
  destruct (@init_failure_state imported_utils "222Rn" sample_gaps sample_H3
              sample_half_rebound IndexError Hinit)
    as [[Hraise _] | [(name & Hname & Hstep & _)
                     | (name & idx & dc & Hname & Hdict & _ & Hdc & _ & _ & ->)]].
  - rewrite Hparse in Hraise. discriminate.
  - rewrite Hparse in Hname. injection Hname as <-.
    destruct Hstep as [[Hnone _] | (idx & Hdict & Hout & _)].
    + rewrite Hthree in Hnone. discriminate.
    + rewrite Hthree in Hdict. injection Hdict as <-.
      exfalso. apply Hout. unfold in_range. cbn. lia.
  - rewrite Hparse in Hname. injection Hname as <-.
    rewrite Hthree in Hdict. injection Hdict as <-.
    change (position (length (decay_consts sample_gaps)) 3) with 3%nat in Hdc.
    by rewrite Hdc.
Defined.

Lemma half_life_raises_iff_witness :
  new_Radionuclide (U := imported_utils) "222Rn" sample_data = Ok sample_Rn222 /\
  half_life (U := imported_utils) sample_Rn222 "ty" = Raise (InvalidUnit "ty").
Proof.
  assert (Hnew : new_Radionuclide (U := imported_utils) "222Rn" sample_data
                 = Ok sample_Rn222) by (vm_compute; reflexivity).
  split; [exact Hnew|].
  apply (@half_life_raises_iff imported_utils "222Rn" sample_data sample_Rn222
           "ty" (InvalidUnit "ty") Hnew).
  split; [discriminate|vm_compute; reflexivity].
Defined.

Lemma half_life_nonnegative_witness :
  new_Radionuclide (U := imported_utils) "222Rn" sample_data = Ok sample_Rn222 /\
  (0 <? 2.0982180755947176e-06)%float = true /\
  (2.0982180755947176e-06 <? infinity)%float = true /\
  (0 <? ln2 sample_data)%float = true /\
  (ln2 sample_data <? infinity)%float = true /\
  (exists h, half_life (U := imported_utils) sample_Rn222 "s" = Ok h /\
             (0 <=? h)%float = true) /\
  time_unit_conv (Utils := imported_utils) 1 "s" "d" (year_conv sample_data)
  = Ok (1 * 1 / 86400)%float /\
  (exists h, half_life (U := imported_utils) sample_Rn222 "d" = Ok h /\
             (0 <=? h)%float = true).
Proof.
  assert (Hnew : new_Radionuclide (U := imported_utils) "222Rn" sample_data
                 = Ok sample_Rn222) by (vm_compute; reflexivity).
  assert (Hconv : time_unit_conv (Utils := imported_utils) 1 "s" "d"
                    (year_conv sample_data) = Ok (1 * 1 / 86400)%float)
    by (vm_compute; reflexivity).
  destruct (@half_life_nonnegative imported_utils "222Rn" sample_data
              sample_Rn222 _ Hnew eq_refl eq_refl eq_refl eq_refl eq_refl)
    as [Hs Hother].
  split_and!; [exact Hnew|reflexivity|reflexivity|reflexivity|reflexivity
              |exact Hs|exact Hconv|].
  apply (Hother "d" _ ltac:(discriminate) Hconv); reflexivity.
Defined.

Lemma half_life_unit_factor_witness :
  new_Radionuclide (U := imported_utils) "222Rn" sample_data = Ok sample_Rn222 /\
  time_unit_conv (Utils := imported_utils) 1 "s" "seconds"
    (year_conv sample_data) = Ok 1%float /\
  half_life (U := imported_utils) sample_Rn222 "seconds"
  = half_life (U := imported_utils) sample_Rn222 "s".
Proof.
  assert (Hnew : new_Radionuclide (U := imported_utils) "222Rn" sample_data
                 = Ok sample_Rn222) by (vm_compute; reflexivity).
  assert (Hconv : time_unit_conv (Utils := imported_utils) 1 "s" "seconds"
                    (year_conv sample_data) = Ok 1%float)
    by (vm_compute; reflexivity).
  split_and!; [exact Hnew|exact Hconv|].
  exact (@half_life_unit_factor imported_utils "222Rn" sample_data
           sample_Rn222 "seconds" Hnew Hconv).
Defined.

Lemma repr_injective_witness :
  new_Radionuclide (U := imported_utils) "3H" sample_data = Ok sample_H3 /\
  new_Radionuclide (U := imported_utils) "H3" sample_gaps
  = Ok {| radionuclide := Some "H-3";
          decay_constant := Some 1.7828715741004621e-09%float;
          prog_bf_mode := Some [("He-3", (1%float, "β-"))];
          data := Some sample_gaps |} /\
  comma_free "H-3" = true /\
  __repr__ sample_H3
  = __repr__ {| radionuclide := Some "H-3";
                decay_constant := Some 1.7828715741004621e-09%float;
                prog_bf_mode := Some [("He-3", (1%float, "β-"))];
                data := Some sample_gaps |} /\
  "H-3" = "H-3" /\ dataset sample_data = dataset sample_gaps.
Proof.
  assert (Hnew1 : new_Radionuclide (U := imported_utils) "3H" sample_data
                  = Ok sample_H3) by (vm_compute; reflexivity).
  assert (Hnew2 : new_Radionuclide (U := imported_utils) "H3" sample_gaps
    = Ok {| radionuclide := Some "H-3";
            decay_constant := Some 1.7828715741004621e-09%float;
            prog_bf_mode := Some [("He-3", (1%float, "β-"))];
            data := Some sample_gaps |}) by (vm_compute; reflexivity).
  split_and!; [exact Hnew1|exact Hnew2|reflexivity|reflexivity|..].
  all: apply (@repr_injective imported_utils "3H" "H3" sample_data sample_gaps
                _ _ "H-3" "H-3" Hnew1 Hnew2 eq_refl eq_refl eq_refl eq_refl
                eq_refl).
Defined.

(** * The decay of an inventory, as the spec describes it *)

(** The sample chains are acyclic: the progeny of H-3 and C-14 are
    stable. *)
Lemma sample_chains_acyclic : inventory.acyclic sample_chains.
Proof.
  assert (Hstep : forall x y,
            y ∈ (inventory.progeny sample_chains x).*1 ->
            (x = "H-3" /\ y = "He-3") \/ (x = "C-14" /\ y = "N-14")).
  { intros x y. cbn.
    destruct (String.eqb_spec x "H-3") as [->|_]; cbn.
    - intros ->%list_elem_of_singleton. auto.
    - destruct (String.eqb_spec x "C-14") as [->|_]; cbn.
      + intros ->%list_elem_of_singleton. auto.
      + by intros ?%elem_of_nil. }
  assert (Hleaf : forall x y,
            inventory.descends sample_chains x y ->
            (x = "H-3" /\ y = "He-3") \/ (x = "C-14" /\ y = "N-14")).
  { intros x y. induction 1 as [x y Hxy|x y z Hxy _ IH]; [by apply Hstep|].
    apply Hstep in Hxy. destruct Hxy as [[-> ->]|[-> ->]], IH as [[? ?]|[? ?]];
      discriminate. }
  intros n Hcycle. apply Hleaf in Hcycle as [[-> ?]|[-> ?]]; discriminate.
Qed.

Section SolverProperties.
Local Open Scope R_scope.
Variable limiting_form : list R -> R -> R.
Import inventory.

(** The share of [x] in a list, item by item. *)
Lemma share_cons (x y : string) (c : R) (cs : list (string * R)) :
  share x ((y, c) :: cs) = (if decide (y = x) then c else 0) + share x cs.
Proof.
  unfold share. rewrite filter_cons. cbn [fst].
  destruct (decide (y = x)); unfold sum_R; cbn; lra.
Qed.

Lemma share_app (x : string) (cs cs' : list (string * R)) :
  share x (cs ++ cs') = share x cs + share x cs'.
Proof.
  induction cs as [|[y c] cs IH]; cbn.
  - change (share x []) with 0. lra.
  - rewrite !share_cons, IH. lra.
Qed.

Lemma share_absent (x : string) (cs : list (string * R)) :
  x ∉ cs.*1 -> share x cs = 0.
Proof.
  induction cs as [|[y c] cs IH]; [done|].
  cbn. rewrite not_elem_of_cons. intros [Hne Hnotin].
  rewrite share_cons, IH by done. destruct (decide (y = x)); [congruence|lra].
Qed.

(** Scaling every contribution scales the share. *)
Lemma share_scaled (k : R) (x : string) (cs : list (string * R)) :
  share x (map (scaled k) cs) = k * share x cs.
Proof.
  induction cs as [|[y c] cs IH]; cbn.
  - unfold share. cbn. lra.
  - unfold scaled at 1. cbn [fst snd]. rewrite !share_cons, IH.
    destruct (decide (y = x)); lra.
Qed.

Lemma scaled_keys (k : R) (cs : list (string * R)) :
  (map (scaled k) cs).*1 = cs.*1.
Proof. induction cs as [|[y c] cs IH]; [done|]. cbn. by rewrite IH. Qed.

(** After accumulation a nuclide named in the list holds what it held
    before plus its share of the list; any other is as before. *)
Lemma accumulate_lookup (acc : gmap string R) (cs : list (string * R))
    (x : string) :
  accumulate acc cs !! x =
  if decide (x ∈ cs.*1) then Some (default 0 (acc !! x) + share x cs)
  else acc !! x.
Proof.
  unfold accumulate. revert acc.
  induction cs as [|[y c] cs IH]; intros acc; [done|].
  cbn [foldl]. rewrite IH. rewrite share_cons. cbn [fmap list_fmap fst].
  destruct (decide (y = x)) as [->|Hne].
  - rewrite lookup_insert_eq.
    rewrite (decide_True (P := x ∈ x :: cs.*1)) by (apply elem_of_cons; auto).
    destruct (decide (x ∈ cs.*1)) as [_|Hnotin].
    + destruct (acc !! x); cbn; f_equal; lra.
    + rewrite share_absent by done. destruct (acc !! x); cbn; f_equal; lra.
  - rewrite lookup_insert_ne by done.
    destruct (decide (x ∈ cs.*1)) as [Hin|Hnotin].
    + rewrite (decide_True (P := x ∈ y :: cs.*1)) by (apply elem_of_cons; auto).
      destruct (acc !! x); cbn; f_equal; lra.
    + rewrite (decide_False (P := x ∈ y :: cs.*1))
        by (intros [->|?]%elem_of_cons; done).
      done.
Qed.

Lemma map_flat_map {A B C} (f : B -> C) (g : A -> list B) (l : list A) :
  map f (flat_map g l) = flat_map (fun a => map f (g a)) l.
Proof. induction l as [|a l IH]; [done|]. cbn. by rewrite map_app, IH. Qed.

(** The contributions of a walk are linear in the path coefficient it
    starts with. *)
Lemma chain_scaled (d : ChainData) (t : R) (depth : nat) (n : string)
    (lams : list R) (k coeff : R) :
  chain limiting_form d t depth n lams (k * coeff)
  = map (scaled k) (chain limiting_form d t depth n lams coeff).
Proof.
  revert n lams coeff. induction depth as [|depth IH]; intros n lams coeff.
  - cbn. unfold scaled. cbn. do 2 f_equal. ring.
  - cbn [chain map]. f_equal.
    + unfold scaled. cbn. f_equal. ring.
    + rewrite map_flat_map. apply flat_map_ext. intros [child b].
      rewrite <- IH. f_equal. ring.
Qed.

(** The contributions of a root are those of one unit of it, scaled by
    its quantity. *)
Lemma contributions_scaled (d : ChainData) (t : R) (root : string) (q : R) :
  contributions limiting_form d t root q
  = map (scaled q) (contributions limiting_form d t root 1).
Proof.
  unfold contributions. rewrite <- chain_scaled. f_equal. ring.
Qed.

Lemma total_cons (d : ChainData) (t : R) (x root : string) (q : R)
    (roots : list (string * R)) :
  total limiting_form d t x ((root, q) :: roots)
  = q * yield limiting_form d t x root + total limiting_form d t x roots.
Proof. reflexivity. Qed.

(** Roots from which no path ends at [x] contribute nothing to it. *)
Lemma total_unreached (d : ChainData) (t : R) (x : string)
    (roots : list (string * R)) :
  ~ Exists (fun r => reaches limiting_form d t x r.1) roots ->
  total limiting_form d t x roots = 0.
Proof.
  induction roots as [|[root q] roots IH]; [done|].
  rewrite Exists_cons. intros Hnone. rewrite total_cons, IH by tauto.
  unfold yield. rewrite share_absent; [lra|]. intros Hin. apply Hnone. by left.
Qed.

(** The result mapping after the roots of a list have been walked. *)
Lemma solve_from_lookup (d : ChainData) (t : R) (roots : list (string * R))
    (acc : gmap string R) (x : string) :
  foldl (fun acc '(root, initial) =>
           accumulate acc (contributions limiting_form d t root initial))
        acc roots !! x
  = if decide (Exists (fun r => reaches limiting_form d t x r.1) roots)
    then Some (default 0 (acc !! x) + total limiting_form d t x roots)
    else acc !! x.
Proof.
  revert acc. induction roots as [|[root q] roots IH]; intros acc.
  - cbn [foldl]. by rewrite decide_False by (by intros ?%Exists_nil).
  - cbn [foldl]. rewrite IH, accumulate_lookup, total_cons.
    rewrite contributions_scaled, scaled_keys, share_scaled.
    fold (yield limiting_form d t x root).
    fold (reaches limiting_form d t x root).
    destruct (decide (reaches limiting_form d t x root)) as [Hroot|Hroot];
      destruct (decide (Exists (fun r => reaches limiting_form d t x r.1) roots))
        as [Hroots|Hroots].
    + rewrite decide_True by (apply Exists_cons; auto).
      destruct (acc !! x); cbn; f_equal; lra.
    + rewrite decide_True by (apply Exists_cons; auto).
      rewrite (total_unreached d t x roots Hroots).
      destruct (acc !! x); cbn; f_equal; lra.
    + rewrite decide_True by (apply Exists_cons; auto).
      unfold yield. rewrite (share_absent x _ Hroot).
      destruct (acc !! x); cbn; f_equal; lra.
    + by rewrite decide_False by (intros [?|?]%Exists_cons; done).
Qed.

(** The decayed quantity of [x]: present when a path from one of the
    nuclides of the inventory ends at [x], and then the sum of what each of
    them contributes. *)
Lemma solve_lookup (d : ChainData) (quantities : gmap string R) (t : R)
    (x : string) :
  solve limiting_form d quantities t !! x
  = if decide (Exists (fun r => reaches limiting_form d t x r.1)
                 (map_to_list quantities))
    then Some (total limiting_form d t x (map_to_list quantities))
    else None.
Proof.
  unfold solve. rewrite solve_from_lookup, lookup_empty. cbn [default].
  destruct (decide _); [f_equal; lra|done].
Qed.

(** A sum of reals does not depend on the order of its terms. *)
Lemma sum_R_perm (l l' : list R) : l ≡ₚ l' -> sum_R l = sum_R l'.
Proof.
  unfold sum_R.
  induction 1 as [|a l l' _ IH|a b l|l l' l'' _ IH _ IH']; cbn;
    [done|rewrite IH; lra|lra|congruence].
Qed.

Lemma total_insert (d : ChainData) (t : R) (x : string)
    (quantities : gmap string R) (root : string) (q : R) :
  quantities !! root = None ->
  total limiting_form d t x (map_to_list (<[root := q]> quantities))
  = q * yield limiting_form d t x root
    + total limiting_form d t x (map_to_list quantities).
Proof.
  intros Hfresh. rewrite <- total_cons. unfold total.
  apply sum_R_perm, fmap_Permutation. by apply map_to_list_insert.
Qed.

Lemma add_empty_l (b : gmap string R) : add ∅ b = b.
Proof.
  apply map_eq. intros x. unfold add.
  rewrite lookup_union_with, lookup_empty. by destruct (b !! x).
Qed.

(** What a sum of two inventories contributes is the sum of what each
    contributes. *)
Lemma total_add (d : ChainData) (t : R) (x : string) (a b : gmap string R) :
  total limiting_form d t x (map_to_list (add a b))
  = total limiting_form d t x (map_to_list a)
    + total limiting_form d t x (map_to_list b).
Proof.
  revert b. induction a as [|root q a Hfresh IH] using map_ind; intros b.
  - rewrite add_empty_l, map_to_list_empty. unfold total at 2. cbn. lra.
  - rewrite (total_insert d t x a root q Hfresh).
    destruct (b !! root) as [q'|] eqn:Hb.
    + rewrite <- (insert_delete_id b root q' Hb) at 1.
      unfold add.
      rewrite <- (insert_union_with _ a (delete root b) root q q' (q + q'))
        by done.
      fold (add a (delete root b)).
      rewrite total_insert, IH.
      * rewrite <- (insert_delete_id b root q' Hb) at 2.
        rewrite (total_insert d t x (delete root b) root q')
          by apply lookup_delete_eq.
        lra.
      * unfold add. rewrite lookup_union_with, Hfresh, lookup_delete_eq. done.
    + unfold add. rewrite <- insert_union_with_l by done.
      fold (add a b). rewrite total_insert, IH; [lra|].
      unfold add. by rewrite lookup_union_with, Hfresh, Hb.
Qed.

(** A nuclide is reached from a sum of two inventories when it is reached
    from one of them. *)
Lemma reached_add (d : ChainData) (t : R) (x : string) (a b : gmap string R) :
  Exists (fun r => reaches limiting_form d t x r.1) (map_to_list (add a b)) <->
  Exists (fun r => reaches limiting_form d t x r.1) (map_to_list a) \/
  Exists (fun r => reaches limiting_form d t x r.1) (map_to_list b).
Proof.
  rewrite !Exists_exists. split.
  - intros ([root q] & Hin & Hreach). apply elem_of_map_to_list in Hin.
    unfold add in Hin. rewrite lookup_union_with in Hin.
    destruct (a !! root) as [qa|] eqn:Ha.
    + left. exists (root, qa). by rewrite elem_of_map_to_list.
    + destruct (b !! root) as [qb|] eqn:Hb; [|done].
      right. exists (root, qb). by rewrite elem_of_map_to_list.
  - intros [([root q] & Hin & Hreach) | ([root q] & Hin & Hreach)];
      apply elem_of_map_to_list in Hin.
    + destruct (b !! root) as [qb|] eqn:Hb.
      * exists (root, q + qb). split; [|done]. apply elem_of_map_to_list.
        unfold add. by rewrite lookup_union_with, Hin, Hb.
      * exists (root, q). split; [|done]. apply elem_of_map_to_list.
        unfold add. by rewrite lookup_union_with, Hin, Hb.
    + destruct (a !! root) as [qa|] eqn:Ha.
      * exists (root, qa + q). split; [|done]. apply elem_of_map_to_list.
        unfold add. by rewrite lookup_union_with, Hin, Ha.
      * exists (root, q). split; [|done]. apply elem_of_map_to_list.
        unfold add. by rewrite lookup_union_with, Hin, Ha.
Qed.

(** The solver is additive on the quantities it is given. *)
Lemma solve_add (d : ChainData) (a b : gmap string R) (t : R) :
  solve limiting_form d (add a b) t
  = add (solve limiting_form d a t) (solve limiting_form d b t).
Proof.
  apply map_eq. intros x. unfold add at 2.
  rewrite lookup_union_with, !solve_lookup, total_add.
  pose proof (reached_add d t x a b) as Hreached.
  destruct (decide (Exists _ (map_to_list (add a b)))) as [Hab|Hab];
    destruct (decide (Exists _ (map_to_list a))) as [Ha|Ha];
    destruct (decide (Exists _ (map_to_list b))) as [Hb|Hb];
    try tauto; cbn; try done.
  - rewrite (total_unreached d t x _ Hb). f_equal. lra.
  - rewrite (total_unreached d t x _ Ha). f_equal. lra.
Qed.

(** C4.  For two inventories bound to the same dataset, [A + B] is
    defined, and decaying it for a time [t] gives the sum of [A] decayed
    for [t] and [B] decayed for [t]: the same nuclides with the same
    quantities, whatever limiting form the solver uses on paths with equal
    decay constants. *)
Theorem decay_additive (A B : Inventory) (t : R) :
  data A = data B ->
  exists S,
    __add__ A B = Some S /\
    __add__ (decay limiting_form A t) (decay limiting_form B t)
    = Some (decay limiting_form S t).
Proof.
  destruct A as [a d], B as [b d']. cbn. intros <-.
  unfold __add__, decay. cbn [data contents].
  rewrite !decide_True by done.
  eexists. split; [reflexivity|]. cbn [data contents].
  by rewrite solve_add.
Qed.

(** A path enumerated from [n] ends at [n] or at a descendant of [n]. *)
Lemma chain_terminals (d : ChainData) (t : R) (depth : nat) (n : string)
    (lams : list R) (coeff : R) (y : string) (c : R) :
  (y, c) ∈ chain limiting_form d t depth n lams coeff ->
  y = n \/ descends d n y.
Proof.
  revert n lams coeff. induction depth as [|depth IH]; intros n lams coeff.
  - cbn. intros [= -> _]%list_elem_of_singleton. by left.
  - cbn [chain]. rewrite elem_of_cons. intros [[= -> _]|Hin]; [by left|right].
    apply list_elem_of_In, in_flat_map in Hin as ([child b] & Hchild & Hin).
    apply list_elem_of_In in Hchild, Hin.
    assert (Hstep : child ∈ (progeny d n).*1).
    { apply list_elem_of_fmap. by exists (child, b). }
    apply IH in Hin as [->|Hdescends].
    + by apply tc_once.
    + by eapply tc_l.
Qed.

(** The first path enumerated from [n] is [n] alone; the others end at
    descendants of [n]. *)
Lemma chain_head (d : ChainData) (t : R) (depth : nat) (n : string)
    (lams : list R) (coeff : R) :
  exists rest,
    chain limiting_form d t depth n lams coeff
    = (n, coeff * path_sum limiting_form (lams ++ [decay_constant d n]) t)
      :: rest /\
    forall y c, (y, c) ∈ rest -> descends d n y.
Proof.
  destruct depth as [|depth]; cbn [chain].
  - exists []. split; [done|]. intros y c Hin. by apply elem_of_nil in Hin.
  - eexists. split; [reflexivity|]. intros y c Hin.
    apply list_elem_of_In, in_flat_map in Hin as ([child b] & Hchild & Hin).
    apply list_elem_of_In in Hchild, Hin.
    assert (Hstep : child ∈ (progeny d n).*1).
    { apply list_elem_of_fmap. by exists (child, b). }
    apply chain_terminals in Hin as [->|Hdescends].
    + by apply tc_once.
    + by eapply tc_l.
Qed.

Lemma reaches_self (d : ChainData) (t : R) (x : string) :
  reaches limiting_form d t x x.
Proof.
  unfold reaches, contributions.
  destruct (chain_head d t (max_depth d) x [] 1) as (rest & -> & _).
  cbn. by left.
Qed.

(** A path of one nuclide: ordinary decay. *)
Lemma path_sum_single (lam t : R) :
  path_sum limiting_form [lam] t = exp (- lam * t).
Proof.
  unfold path_sum. rewrite decide_True by apply NoDup_singleton.
  unfold bateman_sum, sum_R, prod_R. cbn. field.
Qed.

(** In an acyclic dataset a nuclide is fed by no path but its own. *)
Lemma yield_self (d : ChainData) (t : R) (x : string) :
  acyclic d ->
  yield limiting_form d t x x = exp (- decay_constant d x * t).
Proof.
  intros Hacyclic. unfold yield, contributions.
  destruct (chain_head d t (max_depth d) x [] 1) as (rest & -> & Hrest).
  rewrite share_cons, decide_True by done.
  rewrite share_absent.
  - cbn [app]. rewrite path_sum_single. lra.
  - intros ([y c] & -> & Hin)%list_elem_of_fmap. cbn in Hin.
    by apply (Hacyclic y), (Hrest y c).
Qed.

(** One half-life halves: [exp (- λ (ln 2 / λ)) = 1/2]. *)
Lemma exp_half_life (lam : R) : 0 < lam -> exp (- lam * (ln 2 / lam)) = / 2.
Proof.
  intros Hlam.
  replace (- lam * (ln 2 / lam)) with (- ln 2) by (field; lra).
  rewrite exp_Ropp, exp_ln by lra. done.
Qed.

(** A lone nuclide with a positive decay constant, in an acyclic dataset,
    is left with half its quantity after [ln 2 / λ]. *)
Lemma decay_one_half_life (inv : Inventory) (X : string) (Q : R) :
  contents inv = {[X := Q]} ->
  0 < decay_constant (data inv) X ->
  acyclic (data inv) ->
  contents (decay limiting_form inv (ln 2 / decay_constant (data inv) X)) !! X
  = Some (Q / 2).
Proof.
  intros Hcontents Hlam Hacyclic. unfold decay. cbn [contents].
  rewrite Hcontents, solve_lookup, map_to_list_singleton.
  rewrite decide_True by (apply Exists_cons; left; apply reaches_self).
  rewrite total_cons. cbn [fst snd]. unfold total. cbn [map sum_R foldr].
  rewrite yield_self, exp_half_life by done. f_equal. lra.
Qed.

(** C3.  An inventory that holds one nuclide [X] with quantity [Q], [X]
    having a positive decay constant [λ] in a dataset that keeps the
    invariant of spec §3 (no nuclide descends from itself), holds [Q / 2]
    of [X] after one half-life [ln 2 / λ] of [X].  In particular, over the
    sample chains, 12.32 years is the half-life of H-3, and
    [Inventory({'H-3': 10.0})] decayed for 12.32 years holds 5 of H-3. *)
Theorem lone_nuclide_halves :
  (forall (inv : Inventory) (X : string) (Q : R),
     contents inv = {[X := Q]} ->
     0 < decay_constant (data inv) X ->
     acyclic (data inv) ->
     contents (decay limiting_form inv (ln 2 / decay_constant (data inv) X))
       !! X
     = Some (Q / 2)) /\
  ln 2 / decay_constant sample_chains "H-3"
  = 12.32 * seconds_per_year sample_chains /\
  contents sample_tritium = {["H-3" := 10]} /\
  contents (decay limiting_form sample_tritium
              (12.32 * seconds_per_year sample_chains)) !! "H-3"
  = Some 5.
Proof.
  assert (Hln2 : 0 < ln 2) by (pose proof ln_lt_2; lra).
  assert (Hlam : 0 < decay_constant (data sample_tritium) "H-3").
  { cbn. apply Rdiv_lt_0_compat; lra. }
  assert (Hyears : ln 2 / decay_constant sample_chains "H-3"
                   = 12.32 * seconds_per_year sample_chains).
  { unfold seconds_per_year. cbn. field. lra. }
  split_and!; [exact decay_one_half_life|exact Hyears|reflexivity|].
  rewrite <- Hyears. replace 5 with (10 / 2) by lra.
  by apply decay_one_half_life; [|exact Hlam|exact sample_chains_acyclic].
Qed.

End SolverProperties.

(** ** Instances on the sample inventories *)

Lemma lone_nuclide_halves_witness :
  inventory.contents sample_tritium = {["H-3" := 10%R]} /\
  (0 < inventory.decay_constant (inventory.data sample_tritium) "H-3")%R /\
  inventory.acyclic (inventory.data sample_tritium) /\
  inventory.contents
    (inventory.decay no_limiting_form sample_tritium
       (ln 2 / inventory.decay_constant (inventory.data sample_tritium) "H-3")%R)
    !! "H-3"
  = Some (10 / 2)%R.
Proof.
  assert (Hln2 : (0 < ln 2)%R) by (pose proof ln_lt_2; lra).
  assert (Hlam :
    (0 < inventory.decay_constant (inventory.data sample_tritium) "H-3")%R).
  { cbn. apply Rdiv_lt_0_compat; lra. }
  split_and!; [reflexivity|exact Hlam|exact sample_chains_acyclic|].
  exact (proj1 (lone_nuclide_halves no_limiting_form) sample_tritium "H-3"
           10%R eq_refl Hlam sample_chains_acyclic).
Defined.

Lemma decay_additive_witness :
  inventory.data sample_inv1 = inventory.data sample_inv2 /\
  exists S,
    inventory.__add__ sample_inv1 sample_inv2 = Some S /\
    inventory.__add__
      (inventory.decay no_limiting_form sample_inv1
         (12.32 * inventory.seconds_per_year sample_chains)%R)
      (inventory.decay no_limiting_form sample_inv2
         (12.32 * inventory.seconds_per_year sample_chains)%R)
    = Some (inventory.decay no_limiting_form S
              (12.32 * inventory.seconds_per_year sample_chains)%R).
Proof.
  split; [reflexivity|].
  exact (decay_additive no_limiting_form sample_inv1 sample_inv2 _ eq_refl).
Defined.
